(** * CWrap: checked calls and resource guards

    A shallow embedding of the header-only library CWrap
    (include/checkcall.hpp, include/checkcall.h) and of the resource
    guard exercised by tests/guard_test.cpp.

    C++ code that reads or writes ambient state (errno, the C library
    behind a wrapped function) is a function on an explicit environment;
    code that may throw returns an [outcome].  An invocation log, kept by
    the embedding and invisible to the embedded code, records which hooks,
    callables and handlers ran, and in which order. *)

From Stdlib Require Import ZArith List String Bool Lia DecimalString.
Import ListNotations.
Local Open Scope string_scope.
Local Open Scope list_scope.
Local Open Scope Z_scope.

(** ** Exceptions, environments and effectful code *)

(** The exception objects the library and its tests let escape. *)
Inductive exception : Type :=
  | runtime_error (what : string)      (* std::runtime_error *)
  | bad_function_call                  (* std::bad_function_call *)
  | foreign_exception (id : nat).      (* anything client code throws *)

(** Result of evaluating a C++ expression: it yields a value, leaves by an
    exception, or ends the process ([std::terminate], [std::abort]). *)
Inductive outcome (A : Type) : Type :=
  | Returned (a : A)
  | Thrown (e : exception)
  | Terminated.
Arguments Returned {A} a.
Arguments Thrown {A} e.
Arguments Terminated {A}.

(** Ambient process state: the error indicator [errno] and whatever else
    the wrapped C API keeps ([ext]). *)
Record Env {Ext : Type} : Type := mkEnv { errno : Z; ext : Ext }.
Arguments Env Ext : clear implicits.
Arguments mkEnv {Ext} errno ext.

Definition set_errno {Ext} (v : Z) (env : Env Ext) : Env Ext :=
  mkEnv v (ext env).

(** Client-supplied code (callables, policies, deleters): it sees the
    environment, may change it, and returns or throws.  State changes made
    before a throw persist. *)
Definition code (Ext A : Type) : Type := Env Ext -> outcome A * Env Ext.

Definition pure {Ext A} (a : A) : code Ext A := fun env => (Returned a, env).

Definition throw {Ext A} (e : exception) : code Ext A :=
  fun env => (Thrown e, env).

(** Library code: client code plus the invocation log. *)
Record run (Ev Ext A : Type) : Type :=
  mkRun { result : outcome A; final : Env Ext; events : list Ev }.
Arguments mkRun {Ev Ext A} result final events.
Arguments result {Ev Ext A} r.
Arguments final {Ev Ext A} r.
Arguments events {Ev Ext A} r.

Definition M (Ev Ext A : Type) : Type := Env Ext -> run Ev Ext A.

Definition ret {Ev Ext A} (a : A) : M Ev Ext A :=
  fun env => mkRun (Returned a) env [].

Definition bind {Ev Ext A B} (m : M Ev Ext A) (k : A -> M Ev Ext B)
  : M Ev Ext B :=
  fun env =>
    let r := m env in
    match result r with
    | Returned a =>
        let r' := k a (final r) in
        mkRun (result r') (final r') (events r ++ events r')
    | Thrown e => mkRun (Thrown e) (final r) (events r)
    | Terminated => mkRun Terminated (final r) (events r)
    end.

(** Record one entry in the invocation log. *)
Definition emit {Ev Ext} (ev : Ev) : M Ev Ext unit :=
  fun env => mkRun (Returned tt) env [ev].

(** Run client code; it cannot touch the log. *)
Definition lift {Ev Ext A} (c : code Ext A) : M Ev Ext A :=
  fun env => let '(o, env') := c env in mkRun o env' [].

Declare Scope cwrap_scope.
Delimit Scope cwrap_scope with cwrap.
Notation "x <- m ;; k" := (bind m (fun x => k))
  (at level 61, m at next level, right associativity) : cwrap_scope.
Notation "m ;; k" := (bind m (fun _ => k))
  (at level 61, right associativity) : cwrap_scope.
Local Open Scope cwrap_scope.

(** ** Return types of wrapped C functions *)

(** [std::is_integral<Rv>]: the type's values are integers. *)
Class is_integral (Rv : Type) : Type := { value_of : Rv -> Z }.

(** [std::is_signed<Rv>]: the type has a value below zero, [Rv(-1) < Rv(0)]. *)
Class is_signed (Rv : Type) `{is_integral Rv} : Prop :=
  has_negative : exists rv : Rv, value_of rv < 0.

(** Types that [nullptr != rv] accepts. *)
Class nullptr_comparable (Rv : Type) : Type := { is_nullptr : Rv -> bool }.

(** Types a formatter can print ([operator<<], [boost::format % rv]). *)
Class streamable (Rv : Type) : Type := { to_text : Rv -> string }.

(** [int] and the other signed integer types; no operation of the library
    can overflow one except the negation in the error-code policies. *)
Definition int : Type := Z.

(** Unsigned integer types. *)
Definition unsigned : Type := N.

(** Object pointers: an address, 0 for the null pointer. *)
Record pointer : Type := Ptr { address : N }.

Definition nullptr : pointer := Ptr 0.

(** An integer as a formatter prints it. *)
Definition decimal (z : Z) : string := NilZero.string_of_int (Z.to_int z).

#[export] Instance int_is_integral : is_integral int := { value_of z := z }.

#[export] Instance int_is_signed : is_signed int.
Proof. exists (-1). reflexivity. Qed.

#[export] Instance int_streamable : streamable int := { to_text := decimal }.

#[export] Instance unsigned_is_integral : is_integral unsigned :=
  { value_of n := Z.of_N n }.

#[export] Instance unsigned_streamable : streamable unsigned :=
  { to_text n := decimal (Z.of_N n) }.

#[export] Instance pointer_nullptr_comparable : nullptr_comparable pointer :=
  { is_nullptr p := N.eqb (address p) 0 }.

(** ** include/checkcall.hpp, namespace cwrap *)

Module cwrap.

(** The shape of the two policy kinds.  A policy is a class with static
    member functions; [preCall] is optional. *)
Record ReturnCheckPolicy {Ext Rv : Type} : Type := {
  returnValueIsOk : Rv -> code Ext bool;
  preCall : option (code Ext unit)
}.
Arguments ReturnCheckPolicy Ext Rv : clear implicits.

Record ErrorPolicy {Ext Rv : Type} : Type := {
  handleError : Rv -> code Ext unit
}.
Arguments ErrorPolicy Ext Rv : clear implicits.

(** Entries of the invocation log of a checked call. *)
Inductive event {Rv Args : Type} : Type :=
  | EvPreCall                       (* R::preCall() was entered *)
  | EvCallable (args : Args)        (* callable(args...) was entered *)
  | EvHandleError (rv : Rv).        (* E::handleError(rv) was entered *)
Arguments event Rv Args : clear implicits.

Section CheckCall.
Context {Ext Rv Args : Type}.

Local Abbreviation RCP := (ReturnCheckPolicy Ext Rv).
Local Abbreviation EP := (ErrorPolicy Ext Rv).
Local Abbreviation Lib := (M (event Rv Args) Ext).

(** [_auxiliary::HasPreCall<T>::value]: does [T::preCall] name something. *)
Definition HasPreCall (T : RCP) : bool :=
  match preCall T with Some _ => true | None => false end.

(** [_auxiliary::CallIf<cond, T>::call()].  The [true] specialisation
    calls [T::preCall()]; it is only ever instantiated with
    [cond = HasPreCall<T>::value]. *)
Definition CallIf (cond : bool) (T : RCP) : Lib unit :=
  if cond then
    match preCall T with
    | Some hook => emit EvPreCall ;; lift hook
    | None => ret tt
    end
  else ret tt.

(** [callable(std::forward<Args>(args)...)] *)
Definition call_callable (callable : Args -> code Ext Rv) (args : Args)
  : Lib Rv :=
  emit (EvCallable args) ;; lift (callable args).

(** [E::handleError(retVal)] *)
Definition call_handleError (E : EP) (rv : Rv) : Lib unit :=
  emit (EvHandleError rv) ;; lift (handleError E rv).

(** [template <class R, class E, class Callable, class... Args>
    auto CALL_CHECKED(Callable&& callable, Args&&... args)] *)
Definition CALL_CHECKED (R : RCP) (E : EP)
    (callable : Args -> code Ext Rv) (args : Args) : Lib Rv :=
  CallIf (HasPreCall R) R ;;
  retVal <- call_callable callable args ;;
  ok <- lift (returnValueIsOk R retVal) ;;
  (if negb ok then call_handleError E retVal else ret tt) ;;
  ret retVal.

(** [class CallGuard<Functor, ReturnCheckPolicy, ErrorPolicy>]: the bound
    functor is the only member; a functor's own mutable state lives in
    the environment. *)
Record CallGuard : Type := { _functor : Args -> code Ext Rv }.

(** [CallGuard::operator()(Args&&... args)] *)
Definition CallGuard_call (R : RCP) (E : EP) (g : CallGuard) (args : Args)
  : Lib Rv :=
  CALL_CHECKED R E (_functor g) args.

(** [CallCheckContext<R, E>::CALL_CHECKED(callable, args...)] *)
Definition CallCheckContext_CALL_CHECKED (R : RCP) (E : EP)
    (callable : Args -> code Ext Rv) (args : Args) : Lib Rv :=
  CALL_CHECKED R E callable args.

(** *** Error policies *)

Section ErrorPolicies.
(** [std::strerror], from the C library. *)
Variable strerror : Z -> string.

Definition ReportReturnValueErrorPolicy `{streamable Rv} : EP :=
  {| handleError rv :=
       throw (runtime_error
                ("Return value indicated error: " ++ to_text rv)%string) |}.

Definition ErrnoErrorPolicy : EP :=
  {| handleError _ :=
       fun env => (Thrown (runtime_error (strerror (errno env))), env) |}.

Definition ErrorCodeErrorPolicy `{is_integral Rv} : EP :=
  {| handleError rv :=
       throw (runtime_error (strerror (- value_of rv))) |}.
End ErrorPolicies.

(** *** Return-check policies *)

Definition IsZeroReturnCheckPolicy `{is_integral Rv} : RCP :=
  {| returnValueIsOk rv := pure (value_of rv =? 0);
     preCall := None |}.

Definition IsNotNegativeReturnCheckPolicy `{is_signed Rv} : RCP :=
  {| returnValueIsOk rv := pure (value_of rv >=? 0);
     preCall := None |}.

Definition IsNotZeroReturnCheckPolicy `{is_signed Rv} : RCP :=
  {| returnValueIsOk rv := pure (negb (value_of rv =? 0));
     preCall := None |}.

Definition IsNotNullptrReturnCheckPolicy `{nullptr_comparable Rv} : RCP :=
  {| returnValueIsOk rv := pure (negb (is_nullptr rv));
     preCall := None |}.

Definition IsErrnoZeroReturnCheckPolicy : RCP :=
  {| returnValueIsOk _ := fun env => (Returned (errno env =? 0), env);
     preCall := Some (fun env => (Returned tt, set_errno 0 env)) |}.

End CheckCall.

Definition DefaultErrorPolicy {Ext Rv} `{streamable Rv} : ErrorPolicy Ext Rv :=
  ReportReturnValueErrorPolicy.

Definition DefaultReturnCheckPolicy {Ext Rv} `{is_integral Rv}
  : ReturnCheckPolicy Ext Rv :=
  IsZeroReturnCheckPolicy.

(** ** include/checkcall.h, namespace cwrap::error *)

Module error.

(** Writing [s] to a [std::ostringstream] constructed from [init]: the
    stream is opened without [ate], so output starts at position 0 and
    replaces the initial characters; [str()] gives the whole buffer. *)
Definition ostringstream_put (init s : string) : string :=
  (s ++ substring (length s) (length init - length s) init)%string.

Section CheckCall.
Context {Ext Rv Args : Type}.

Local Abbreviation RCP := (ReturnCheckPolicy Ext Rv).
Local Abbreviation EP := (ErrorPolicy Ext Rv).
Local Abbreviation Lib := (M (event Rv Args) Ext).

Section ErrorPolicies.
Variable strerror : Z -> string.

Definition DefaultErrorPolicy `{streamable Rv} : EP :=
  {| handleError rv :=
       throw (runtime_error
                (ostringstream_put "Return value indicated error. Got: "
                                   (to_text rv))) |}.

Definition ErrnoErrorPolicy : EP :=
  {| handleError _ :=
       fun env => (Thrown (runtime_error (strerror (errno env))), env) |}.

(** [handleError(int rv)]: the return value converts to [int]. *)
Definition ReturnCodeErrorPolicy `{is_integral Rv} : EP :=
  {| handleError rv :=
       throw (runtime_error (strerror (- value_of rv))) |}.
End ErrorPolicies.

Definition IsZeroReturnCheckPolicy `{is_integral Rv} : RCP :=
  {| returnValueIsOk rv := pure (value_of rv =? 0);
     preCall := None |}.

Definition IsNotNegativeReturnCheckPolicy `{is_signed Rv} : RCP :=
  {| returnValueIsOk rv := pure (value_of rv >=? 0);
     preCall := None |}.

(** [class CallGuard<Functor, ReturnCheckPolicy, ErrorPolicy>] *)
Record CallGuard : Type := { _functor : Args -> code Ext Rv }.

(** [CallGuard::operator()(Args&&... args)]: call, check, handle,
    return.  Nothing of the policy but [returnValueIsOk] is used. *)
Definition CallGuard_call (R : RCP) (E : EP) (g : CallGuard) (args : Args)
  : Lib Rv :=
  retVal <- call_callable (_functor g) args ;;
  ok <- lift (returnValueIsOk R retVal) ;;
  (if negb ok then call_handleError E retVal else ret tt) ;;
  ret retVal.

End CheckCall.

End error.

End cwrap.

(** ** The resource guard ([Guard<T, FreePolicy, StoragePolicy>])

    The header that defines the guard is not among the sources; what is
    there are its tests (tests/guard_test.cpp) and one client
    (examples/rsa.cpp). *)

Module cppc.

(** The language standard the client is compiled for: the test file
    distinguishes [__cplusplus < 201703L] from the rest. *)
Inductive cpp_standard : Type := before_cpp17 | cpp17.

(** Modelled from the spec: the kinds of cleanup-action type a guard can be
    instantiated with ("a plain function reference, a function pointer, a
    stateful callable object, or a default-constructed empty callable"),
    each with the exception specification its invocation is declared
    with.  The guard's header, which names these types, is missing. *)
Inductive FreePolicyType : Type :=
  | DefaultFreePolicy                          (* std::function<void(T&)> *)
  | function_object (call_is_noexcept : bool)  (* class with operator() *)
  | function_pointer (noexcept_spec : bool)    (* pointer to void(T) [noexcept] *)
  | function_reference (noexcept_spec : bool)  (* void (&)(T) [noexcept] *)
  | reference_to (P : FreePolicyType).         (* P&, const P& *)

(** Modelled from the spec: "whether the cleanup action's invocation is
    declared not to raise", the value of
    [noexcept(freePolicy(guarded))] for a policy of type [P].  An exception
    specification is part of a function type from C++17 on only;
    [std::function::operator()] is not declared [noexcept]. *)
Fixpoint invocation_is_noexcept (std : cpp_standard) (P : FreePolicyType)
  : bool :=
  match P with
  | DefaultFreePolicy => false
  | function_object b => b
  | function_pointer b | function_reference b =>
      match std with cpp17 => b | before_cpp17 => false end
  | reference_to P' => invocation_is_noexcept std P'
  end.

(** Modelled from the spec: "Destructor's failure-transparency is
    determined statically by whether the cleanup action's invocation is
    declared not to raise"; the guard's destructor declaration is in the
    missing header.  Spelled out by kind of policy, as the static
    assertions at the end of tests/guard_test.cpp list them. *)
Fixpoint destructor_is_noexcept (std : cpp_standard) (P : FreePolicyType)
  : bool :=
  match P with
  | DefaultFreePolicy => false
  | function_object call_is_noexcept => call_is_noexcept
  | function_pointer spec | function_reference spec =>
      match std, spec with
      | cpp17, true => true
      | _, _ => false
      end
  | reference_to P' => destructor_is_noexcept std P'
  end.

(** The one entry kind of a guard's invocation log: the cleanup action
    was entered on [v]. *)
Inductive event {T : Type} : Type := EvCleanup (v : T).
Arguments event T : clear implicits.

Section Guard.
Context {Ext T : Type}.

Local Abbreviation Lib := (M (event T) Ext).

(** Modelled from the spec: a cleanup action is "a callable accepting a
    reference (or pointer) to the guarded value type", or "a
    default-constructed empty callable"; the policy classes are in the
    missing header.  At run time: a target to call, or the empty state of
    a default-constructed [std::function]. *)
Inductive FreePolicy : Type :=
  | empty_function
  | target (f : T -> code Ext unit).

(** Modelled from the spec: "if the cleanup action is in its
    default/empty state and is invoked, invocation must fail loudly";
    the test names the failure, [std::bad_function_call]. *)
Definition invoke (fp : FreePolicy) (v : T) : Lib unit :=
  match fp with
  | empty_function => lift (throw bad_function_call)
  | target f => emit (EvCleanup v) ;; lift (f v)
  end.

(** Modelled from the spec: a guard owns a guarded value and a cleanup
    action, and is either responsible for the cleanup or inert
    ("move transfers responsibility and leaves the source guard inert").
    The class definition is in the missing header. *)
Record Guard : Type := mkGuard {
  freePolicy : FreePolicy;
  guarded : T;
  inert : bool
}.

(** Modelled from the spec: construction from a cleanup action and an
    initial value ("binds both"); the other two constructors pass the
    default-constructed action, the default-constructed value or both. *)
Definition construct (fp : FreePolicy) (v : T) : Guard :=
  mkGuard fp v false.

(** Modelled from the spec: "[get()] returns a reference to the guarded
    value". *)
Definition get (g : Guard) : T := guarded g.

(** A function declared [noexcept] that an exception tries to leave ends
    in [std::terminate]. *)
Definition noexcept_function {A} (declared : bool) (body : Lib A) : Lib A :=
  fun env =>
    let r := body env in
    match result r with
    | Thrown _ =>
        if declared then mkRun Terminated (final r) (events r) else r
    | _ => r
    end.

(** Modelled from the spec: "Destruction invokes the cleanup action on
    the guarded value exactly once, unless the guard has been moved-from
    (in which case destruction is a no-op)".  The destructor is in the
    missing header.  [std] and [P] are the language standard and the
    cleanup-action type the guard is instantiated for. *)
Definition destroy (std : cpp_standard) (P : FreePolicyType) (g : Guard)
  : Lib unit :=
  noexcept_function (destructor_is_noexcept std P)
    (if inert g then ret tt else invoke (freePolicy g) (guarded g)).

(** Modelled from the spec: "Move construction and move assignment
    transfer ownership of both the cleanup action and the guarded value,
    and must leave the source in the inert state".  The result is the new
    guard and the source as the move leaves it. *)
Definition move_construct (other : Guard) : Guard * Guard :=
  (mkGuard (freePolicy other) (guarded other) (inert other),
   mkGuard (freePolicy other) (guarded other) true).

(** Modelled from the spec: "Move assignment to a bound guard must
    destroy/release the guard's current binding and its own cleanup
    obligation before accepting the new binding".  The result is the
    assigned-to guard and the source as the move leaves it. *)
Definition move_assign (this other : Guard) : Lib (Guard * Guard) :=
  (if inert this then ret tt
   else invoke (freePolicy this) (guarded this)) ;;
  ret (mkGuard (freePolicy other) (guarded other) (inert other),
       mkGuard (freePolicy other) (guarded other) true).

(** [n] successive move constructions starting from [g]: the guards
    left behind, oldest first, and the guard at the end of the chain. *)
Fixpoint move_chain (n : nat) (g : Guard) : list Guard * Guard :=
  match n with
  | O => ([], g)
  | S n' =>
      let '(fresh, source) := move_construct g in
      let '(behind, final_guard) := move_chain n' fresh in
      (source :: behind, final_guard)
  end.

End Guard.

End cppc.

(** ** Vocabulary for the properties *)

(** The forms a checked call comes in: the function template, the two
    class templates of checkcall.hpp, and the class template of
    checkcall.h. *)
Inductive entry_point : Type :=
  | via_CALL_CHECKED
  | via_CallGuard
  | via_CallCheckContext
  | via_error_CallGuard.

(** The entry points of checkcall.hpp. *)
Definition in_checkcall_hpp (w : entry_point) : bool :=
  match w with via_error_CallGuard => false | _ => true end.

Section Observation.
Context {Ext Rv Args : Type}.

Local Abbreviation RCP := (cwrap.ReturnCheckPolicy Ext Rv).
Local Abbreviation EP := (cwrap.ErrorPolicy Ext Rv).
Local Abbreviation event := (cwrap.event Rv Args).
Local Abbreviation Lib := (M event Ext).

Definition checked_call (w : entry_point) (R : RCP) (E : EP)
    (callable : Args -> code Ext Rv) (args : Args) : Lib Rv :=
  match w with
  | via_CALL_CHECKED => cwrap.CALL_CHECKED R E callable args
  | via_CallGuard =>
      cwrap.CallGuard_call R E {| cwrap._functor := callable |} args
  | via_CallCheckContext =>
      cwrap.CallCheckContext_CALL_CHECKED R E callable args
  | via_error_CallGuard =>
      cwrap.error.CallGuard_call R E
        {| cwrap.error._functor := callable |} args
  end.

(** The return values [handleError] was entered with, in order. *)
Fixpoint handled (log : list event) : list Rv :=
  match log with
  | [] => []
  | cwrap.EvHandleError rv :: log' => rv :: handled log'
  | _ :: log' => handled log'
  end.

(** The argument lists the callable was entered with, in order. *)
Fixpoint called (log : list event) : list Args :=
  match log with
  | [] => []
  | cwrap.EvCallable args :: log' => args :: called log'
  | _ :: log' => called log'
  end.

(** How often the pre-call hook was entered. *)
Fixpoint count_preCall (log : list event) : nat :=
  match log with
  | [] => O
  | cwrap.EvPreCall :: log' => S (count_preCall log')
  | _ :: log' => count_preCall log'
  end.

(** The invocation entered the pre-call hook first, and never again. *)
Definition hook_ran_once_first (r : run event Ext Rv) : Prop :=
  exists rest,
    events r = cwrap.EvPreCall :: rest /\ count_preCall rest = O.

(** The part of an invocation that precedes the callable got through:
    [env0] is the environment the callable is entered with. *)
Definition reaches_callable (w : entry_point) (R : RCP)
    (env env0 : Env Ext) : Prop :=
  match (if in_checkcall_hpp w then cwrap.preCall R else None) with
  | Some hook => hook env = (Returned tt, env0)
  | None => env0 = env
  end.

(** An error handler that keeps its contract: it leaves by an
    exception, whatever it is given. *)
Definition always_raises (E : EP) : Prop :=
  forall rv env, exists e env', cwrap.handleError E rv env = (Thrown e, env').

(** A predicate that accepts exactly the return values with property
    [P], and leaves the environment as it is. *)
Definition accepts_exactly (R : RCP) (P : Rv -> Prop) : Prop :=
  forall rv env,
    exists ok,
      cwrap.returnValueIsOk R rv env = (Returned ok, env)
      /\ (ok = true <-> P rv).

(** A predicate that neither changes the environment nor fails. *)
Definition side_effect_free (R : RCP) : Prop :=
  forall rv env,
    exists ok, cwrap.returnValueIsOk R rv env = (Returned ok, env).

(** A predicate whose verdict is fixed by the return value. *)
Definition decided_by_value (R : RCP) : Prop :=
  forall rv env1 env2,
    fst (cwrap.returnValueIsOk R rv env1)
    = fst (cwrap.returnValueIsOk R rv env2).

(** A policy stripped of its hook: what checkcall.h's wrapper, which
    knows of no hook, makes of a policy. *)
Definition without_hook (R : RCP) : RCP :=
  {| cwrap.returnValueIsOk := cwrap.returnValueIsOk R;
     cwrap.preCall := None |}.

(** Successive invocations of one wrapper, the caller catching what an
    invocation throws; the run of each invocation, in order.  After
    [Terminated] there is no next invocation. *)
Fixpoint call_repeatedly (op : Args -> Lib Rv) (argss : list Args)
    (env : Env Ext) : list (run event Ext Rv) :=
  match argss with
  | [] => []
  | args :: argss' =>
      let r := op args env in
      r :: match result r with
           | Terminated => []
           | _ => call_repeatedly op argss' (final r)
           end
  end.

End Observation.

(** What the log and the result of a checked call may show of the
    callable and the handler: the handler was not entered, or entered
    once with a value the callable returned and the predicate rejected;
    a value returned to the caller is one the callable returned; the
    callable was called at most once. *)
Definition well_behaved {Ext Rv Args} (R : cwrap.ReturnCheckPolicy Ext Rv)
    (callable : Args -> code Ext Rv) (args : Args)
    (r : run (cwrap.event Rv Args) Ext Rv) : Prop :=
  (handled (events r) = []
   \/ exists rv env0 env1 env2,
        callable args env0 = (Returned rv, env1)
        /\ cwrap.returnValueIsOk R rv env1 = (Returned false, env2)
        /\ handled (events r) = [rv])
  /\ (forall rv, result r = Returned rv ->
        exists env0 env1, callable args env0 = (Returned rv, env1))
  /\ (List.length (called (events r)) <= 1)%nat.

(** ** Clients used in the examples *)

(** A C function returning the status code [status] and touching nothing. *)
Definition returning (status : int) : unit -> code unit int :=
  fun _ => pure status.

(** An error policy whose handler comes back, as a logging handler would. *)
Definition ReturningErrorPolicy : cwrap.ErrorPolicy unit int :=
  {| cwrap.handleError := fun _ => pure tt |}.

(** A callable that throws. *)
Definition throwing (id : nat) : unit -> code unit int :=
  fun _ => throw (foreign_exception id).

(** A C function that returns [status] and leaves [errno] at [e]. *)
Definition setting_errno (e : Z) (status : int) : unit -> code unit int :=
  fun _ env => (Returned status, set_errno e env).

(** A return-check policy whose pre-call hook throws. *)
Definition ThrowingHookPolicy : cwrap.ReturnCheckPolicy unit int :=
  {| cwrap.returnValueIsOk := fun rv => pure (rv =? 0);
     cwrap.preCall := Some (throw (foreign_exception 1)) |}.

(** The mock API of the guard tests counts the calls of the release
    function; the count is all the environment holds besides [errno]. *)
Definition release_resources {T} (_ : T) : code nat unit :=
  fun env => (Returned tt, mkEnv (errno env) (S (ext env))).

(** [CustomDeleter<T>]: [void operator()(T &t) const noexcept
    { release_resources(&t); }] *)
Definition CustomDeleterT : @cppc.FreePolicy nat nat :=
  cppc.target release_resources.

Definition CustomDeleterT_type : cppc.FreePolicyType :=
  cppc.function_object true.

(** [&free_resources], a plain function pointer; the mock counts its
    calls like those of [release_resources]. *)
Definition free_resources_pointer : @cppc.FreePolicy nat nat :=
  cppc.target release_resources.

(** The body of testMoveConstruction up to the closing brace of its block:
    [guard] is default-constructed, [another] is move-constructed from
    it, and both go out of scope, [another] first. *)
Definition testMoveConstruction_body (std : cppc.cpp_standard)
  : M (cppc.event nat) nat unit :=
  let guard := cppc.construct CustomDeleterT 0%nat in
  let '(another, guard) := cppc.move_construct guard in
  cppc.destroy std CustomDeleterT_type another ;;
  cppc.destroy std CustomDeleterT_type guard.

(** The body of testMoveAssignment: as above, then
    [guard = GuardT<CustomDeleterT>{}]; the temporary dies at the end of
    the statement, [another] and [guard] at the end of the block. *)
Definition testMoveAssignment_body (std : cppc.cpp_standard)
  : M (cppc.event nat) nat unit :=
  let guard := cppc.construct CustomDeleterT 0%nat in
  let '(another, guard) := cppc.move_construct guard in
  assigned <- cppc.move_assign guard (cppc.construct CustomDeleterT 0%nat) ;;
  let '(guard, temporary) := assigned in
  cppc.destroy std CustomDeleterT_type temporary ;;
  cppc.destroy std CustomDeleterT_type another ;;
  cppc.destroy std CustomDeleterT_type guard.

(** ** examples/rsa.cpp: one key generation, written three ways *)

Module rsa.

(** Calls into OpenSSL and writes to [std::cerr], as a trace kept beside
    the state of the process. *)
Inductive event : Type :=
  | Ev_RAND_status (status : int)
  | Ev_RSA_new (rsa : pointer)
  | Ev_BN_new (bn : pointer)
  | Ev_BN_set_word (bn : pointer) (w : Z) (status : int)
  | Ev_RSA_generate_key_ex (rsa : pointer) (bits : Z) (e cb : pointer)
                           (status : int)
  | Ev_RSA_print_fp (fp rsa : pointer) (offset : Z) (status : int)
  | Ev_BN_free (bn : pointer)
  | Ev_RSA_free (rsa : pointer)
  | Ev_ERR_get_error (e : N)
  | Ev_cerr (text : string).

(** What a function holds on to and has to give back. *)
Inductive resource : Type :=
  | RSA_object (p : pointer)
  | BIGNUM_object (p : pointer).

(** The objects the allocating calls of a trace handed out. *)
Fixpoint acquired (t : list event) : list resource :=
  match t with
  | [] => []
  | Ev_RSA_new p :: t' =>
      if is_nullptr p then acquired t' else RSA_object p :: acquired t'
  | Ev_BN_new p :: t' =>
      if is_nullptr p then acquired t' else BIGNUM_object p :: acquired t'
  | _ :: t' => acquired t'
  end.

(** The objects the freeing calls of a trace were given. *)
Fixpoint released (t : list event) : list resource :=
  match t with
  | [] => []
  | Ev_RSA_free p :: t' => RSA_object p :: released t'
  | Ev_BN_free p :: t' => BIGNUM_object p :: released t'
  | _ :: t' => released t'
  end.

(** Everything written to [std::cerr]. *)
Fixpoint cerr_text (t : list event) : string :=
  match t with
  | [] => ""
  | Ev_cerr text :: t' => (text ++ cerr_text t')%string
  | _ :: t' => cerr_text t'
  end.

(** The trace without its error reporting: the calls that do the work. *)
Fixpoint work (t : list event) : list event :=
  match t with
  | [] => []
  | Ev_ERR_get_error _ :: t' => work t'
  | Ev_cerr _ :: t' => work t'
  | ev :: t' => ev :: work t'
  end.

(** The line feed of ["\n"]. *)
Definition newline : string := String (Ascii.ascii_of_nat 10) "".

(** [constexpr int INDENT{1};] *)
Definition INDENT : Z := 1.

Section OpenSSL.
Context {World : Type}.

(** A function with C linkage: it changes the state of the process and
    returns; it cannot throw. *)
Definition cfun (A : Type) : Type := Env World -> A * Env World.

(** The OpenSSL functions the example calls, [std::cerr]'s inserter and
    [stdout]. *)
Record API : Type := {
  RAND_status : cfun int;
  RSA_new : cfun pointer;
  BN_new : cfun pointer;
  BN_set_word : pointer -> Z -> cfun int;
  RSA_generate_key_ex : pointer -> Z -> pointer -> pointer -> cfun int;
  RSA_print_fp : pointer -> pointer -> Z -> cfun int;
  BN_free : pointer -> cfun unit;
  RSA_free : pointer -> cfun unit;
  ERR_get_error : cfun N;
  ERR_error_string : N -> string;
  cerr_insert : string -> cfun unit;
  stdout : pointer
}.

Variable api : API.

(** The process state with the trace beside it. *)
Definition Traced : Type := (World * list event)%type.

Definition trace (env : Env Traced) : list event := snd (ext env).

(** A process state with nothing traced yet. *)
Definition start (w : Env World) : Env Traced :=
  mkEnv (errno w) (ext w, []).

(** A call of a C function, entered in the trace when it returns. *)
Definition traced {A} (f : cfun A) (ev : A -> event) : code Traced A :=
  fun env =>
    let '(a, env') := f (mkEnv (errno env) (fst (ext env))) in
    (Returned a, mkEnv (errno env') (ext env', snd (ext env) ++ [ev a])).

Local Abbreviation Prog := (M Empty_set Traced).

(** A run with its invocation log dropped. *)
Definition quiet {Ev A} (r : run Ev Traced A) : run Empty_set Traced A :=
  mkRun (result r) (final r) [].

(** Library code run for its effect, its own invocation log dropped. *)
Definition silence {Ev A} (m : M Ev Traced A) : Prog A :=
  fun env => quiet (m env).

(** How a block is left once the destructor of its local object has run:
    as its body was left, unless the destructor throws; a destructor
    that throws while an exception is on its way ends the process. *)
Definition after_destructor {A} (o : outcome A) (d : run Empty_set Traced unit)
  : run Empty_set Traced A :=
  match result d, o with
  | Returned _, _ => mkRun o (final d) []
  | Thrown e, Returned _ => mkRun (Thrown e) (final d) []
  | _, _ => mkRun Terminated (final d) []
  end.

Definition leave_scope {A} (destructor : Prog unit)
    (r : run Empty_set Traced A) : run Empty_set Traced A :=
  match result r with
  | Terminated => r
  | o => after_destructor o (destructor (final r))
  end.

(** A block with one local object: [destructor] runs when [body] is left,
    by return or by an exception that some caller catches. *)
Definition scope {A} (destructor : Prog unit) (body : Prog A) : Prog A :=
  fun env => leave_scope destructor (body env).

Definition c_RAND_status : code Traced int :=
  traced (RAND_status api) Ev_RAND_status.
Definition c_RSA_new : code Traced pointer := traced (RSA_new api) Ev_RSA_new.
Definition c_BN_new : code Traced pointer := traced (BN_new api) Ev_BN_new.
Definition c_BN_set_word (bn : pointer) (w : Z) : code Traced int :=
  traced (BN_set_word api bn w) (Ev_BN_set_word bn w).
Definition c_RSA_generate_key_ex (rsa : pointer) (bits : Z) (e cb : pointer)
  : code Traced int :=
  traced (RSA_generate_key_ex api rsa bits e cb)
         (Ev_RSA_generate_key_ex rsa bits e cb).
Definition c_RSA_print_fp (fp rsa : pointer) (offset : Z) : code Traced int :=
  traced (RSA_print_fp api fp rsa offset) (Ev_RSA_print_fp fp rsa offset).
Definition c_BN_free (bn : pointer) : code Traced unit :=
  traced (BN_free api bn) (fun _ => Ev_BN_free bn).
Definition c_RSA_free (rsa : pointer) : code Traced unit :=
  traced (RSA_free api rsa) (fun _ => Ev_RSA_free rsa).
Definition c_ERR_get_error : code Traced N :=
  traced (ERR_get_error api) Ev_ERR_get_error.
Definition cerr (text : string) : code Traced unit :=
  traced (cerr_insert api text) (fun _ => Ev_cerr text).

(** [std::cerr << ERR_error_string(ERR_get_error(), nullptr) << "\n";] *)
Definition report_to_cerr : Prog unit :=
  e <- lift c_ERR_get_error ;;
  lift (cerr (ERR_error_string api e)) ;;
  lift (cerr newline).

(** The labels [out:] and [out_rsa:] of [rsaKeygenCWay] and what follows
    them. *)
Definition out_rsa (rsa : pointer) (error : int) : Prog int :=
  lift (c_RSA_free rsa) ;; ret error.

Definition out (exponent rsa : pointer) (error : int) : Prog int :=
  lift (c_BN_free exponent) ;; out_rsa rsa error.

(** [int rsaKeygenCWay()] *)
Definition rsaKeygenCWay : Prog int :=
  status <- lift c_RAND_status ;;
  if status =? 0 then
    lift (cerr ("Not enough entropy" ++ newline)) ;; ret 1
  else
    rsa <- lift c_RSA_new ;;
    if is_nullptr rsa then report_to_cerr ;; ret 1
    else
      exponent <- lift c_BN_new ;;
      if is_nullptr exponent then report_to_cerr ;; out_rsa rsa 1
      else
        status <- lift (c_BN_set_word exponent 65537) ;;
        if status =? 0 then report_to_cerr ;; out exponent rsa 1
        else
          status <- lift (c_RSA_generate_key_ex rsa 2048 exponent nullptr) ;;
          if status =? 0 then report_to_cerr ;; out exponent rsa 1
          else
            status <- lift (c_RSA_print_fp (stdout api) rsa INDENT) ;;
            if status =? 0 then report_to_cerr ;; out exponent rsa 1
            else out exponent rsa 0.

(** One piece of client code after another. *)
Definition and_then {A B} (c : code Traced A) (k : A -> code Traced B)
  : code Traced B :=
  fun env =>
    match c env with
    | (Returned a, env') => k a env'
    | (Thrown e, env') => (Thrown e, env')
    | (Terminated, env') => (Terminated, env')
    end.

(** [throw std::runtime_error((boost::format("%s: %d")
    % ERR_error_string(ERR_get_error(), nullptr) % ERR_get_error()).str())].
    The language leaves open which of the two calls of [ERR_get_error]
    comes first; [right_first] is the compiler's choice. *)
Definition throw_openssl_error {A} (right_first : bool) : code Traced A :=
  and_then c_ERR_get_error (fun first =>
  and_then c_ERR_get_error (fun second =>
    let for_text := if right_first then second else first in
    let for_number := if right_first then first else second in
    throw (runtime_error
             (ERR_error_string api for_text ++ ": "
              ++ decimal (Z.of_N for_number))%string))).

(** [struct RSADeleter], [struct BNDeleter]: the call operators. *)
Definition RSADeleter (rsa : pointer) : code Traced unit := c_RSA_free rsa.
Definition BNDeleter (bn : pointer) : code Traced unit := c_BN_free bn.

(** [std::unique_ptr<T, Deleter>::~unique_ptr()]: the deleter is called
    unless the pointer is null; the destructor is [noexcept]. *)
Definition unique_ptr_destructor (deleter : pointer -> code Traced unit)
    (p : pointer) : Prog unit :=
  if is_nullptr p then ret tt
  else
    fun env =>
      let r := lift (deleter p) env in
      match result r with
      | Thrown _ => mkRun Terminated (final r) []
      | _ => r
      end.

(** [int rsaKeygenUniquePtr()] *)
Definition rsaKeygenUniquePtr (right_first : bool) : Prog int :=
  status <- lift c_RAND_status ;;
  if status =? 0 then lift (throw_openssl_error right_first)
  else
    rsa <- lift c_RSA_new ;;
    scope (unique_ptr_destructor RSADeleter rsa)
      (if is_nullptr rsa then lift (throw_openssl_error right_first)
       else
         exponent <- lift c_BN_new ;;
         scope (unique_ptr_destructor BNDeleter exponent)
           (if is_nullptr exponent
            then lift (throw_openssl_error right_first)
            else
              status <- lift (c_BN_set_word exponent 65537) ;;
              if status =? 0 then lift (throw_openssl_error right_first)
              else
                status <- lift (c_RSA_generate_key_ex rsa 2048 exponent
                                                      nullptr) ;;
                if status =? 0 then lift (throw_openssl_error right_first)
                else
                  status <- lift (c_RSA_print_fp (stdout api) rsa INDENT) ;;
                  if status =? 0 then lift (throw_openssl_error right_first)
                  else ret 0)).

(** [struct OpenSSLErrorPolicy] *)
Definition OpenSSLErrorPolicy {Rv} (right_first : bool)
  : cwrap.ErrorPolicy Traced Rv :=
  {| cwrap.handleError := fun _ => throw_openssl_error right_first |}.

(** [using ct = cwrap::CallCheckContext<cwrap::IsNotZeroReturnCheckPolicy,
    OpenSSLErrorPolicy>;] and a call through it. *)
Definition ct_CALL_CHECKED {Args} (right_first : bool)
    (callable : Args -> code Traced int) (args : Args) : Prog int :=
  silence (cwrap.CallCheckContext_CALL_CHECKED
             cwrap.IsNotZeroReturnCheckPolicy
             (OpenSSLErrorPolicy right_first) callable args).

(** [using ct_ptr = cwrap::CallCheckContext<
    cwrap::IsNotNullptrReturnCheckPolicy, OpenSSLErrorPolicy>;] and a call
    through it. *)
Definition ct_ptr_CALL_CHECKED {Args} (right_first : bool)
    (callable : Args -> code Traced pointer) (args : Args) : Prog pointer :=
  silence (cwrap.CallCheckContext_CALL_CHECKED
             cwrap.IsNotNullptrReturnCheckPolicy
             (OpenSSLErrorPolicy right_first) callable args).

(** [using RSAGuard = cwrap::Guard<RSA star, RSADeleter>;] and its like for
    [BIGNUM]: the guard is the one modelled from the spec, for a deleter
    class whose call operator is not [noexcept]. *)
Definition DeleterGuard_type : cppc.FreePolicyType :=
  cppc.function_object false.

Definition guard_destructor (std : cppc.cpp_standard)
    (g : @cppc.Guard Traced pointer) : Prog unit :=
  silence (cppc.destroy std DeleterGuard_type g).

(** [int rsaKeygenCWrapWay()] *)
Definition rsaKeygenCWrapWay (std : cppc.cpp_standard) (right_first : bool)
  : Prog int :=
  ct_CALL_CHECKED right_first (fun _ : unit => c_RAND_status) tt ;;
  rsa_value <- ct_ptr_CALL_CHECKED right_first (fun _ : unit => c_RSA_new) tt ;;
  let rsa := cppc.construct (cppc.target RSADeleter) rsa_value in
  scope (guard_destructor std rsa)
    (bn_value <- ct_ptr_CALL_CHECKED right_first
                   (fun _ : unit => c_BN_new) tt ;;
     let exponent := cppc.construct (cppc.target BNDeleter) bn_value in
     scope (guard_destructor std exponent)
       (ct_CALL_CHECKED right_first
          (fun args : pointer * Z => c_BN_set_word (fst args) (snd args))
          (cppc.get exponent, 65537) ;;
        ct_CALL_CHECKED right_first
          (fun args : pointer * Z * pointer * pointer =>
             let '(r, bits, e, cb) := args in
             c_RSA_generate_key_ex r bits e cb)
          (cppc.get rsa, 2048, cppc.get exponent, nullptr) ;;
        ct_CALL_CHECKED right_first
          (fun args : pointer * pointer * Z =>
             let '(fp, r, offset) := args in c_RSA_print_fp fp r offset)
          (stdout api, cppc.get rsa, INDENT) ;;
        ret 0)).

End OpenSSL.

End rsa.

(** *** Vocabulary for the example *)

Section RsaObservation.
Context {World : Type}.

(** The text of the exception the two C++ variants throw, from the two
    error codes in the order [ERR_get_error] gave them. *)
Definition openssl_message (api : @rsa.API World) (right_first : bool)
    (e1 e2 : N) : string :=
  (rsa.ERR_error_string api (if right_first then e2 else e1) ++ ": "
   ++ decimal (Z.of_N (if right_first then e1 else e2)))%string.

(** At the end of the run every object handed out has been given back,
    once, the last one first, and nothing else was freed. *)
Definition gives_back_what_it_took {A}
    (r : run Empty_set (@rsa.Traced World) A) : Prop :=
  rsa.released (rsa.trace (final r))
  = rev (rsa.acquired (rsa.trace (final r))).

(** Two runs, one reporting by status code and one by exception, that did
    the same work and came to the same verdict. *)
Definition same_work_and_verdict
    (c u : run Empty_set (@rsa.Traced World) int) : Prop :=
  rsa.work (rsa.trace (final c)) = rsa.work (rsa.trace (final u))
  /\ (result c = Returned 0 <-> result u = Returned 0)
  /\ (result c = Returned 1
      <-> exists msg, result u = Thrown (runtime_error msg))
  /\ (result c = Returned 0 -> final c = final u).

End RsaObservation.

(** An OpenSSL whose state is its error queue: allocation works,
    [BN_set_word] fails, [ERR_get_error] takes the oldest error off the
    queue. *)
Definition failing_BN_set_word : @rsa.API (list N) :=
  {| rsa.RAND_status := fun w => (1, w);
     rsa.RSA_new := fun w => (Ptr 1, w);
     rsa.BN_new := fun w => (Ptr 2, w);
     rsa.BN_set_word := fun _ _ w => (0, w);
     rsa.RSA_generate_key_ex := fun _ _ _ _ w => (1, w);
     rsa.RSA_print_fp := fun _ _ _ w => (1, w);
     rsa.BN_free := fun _ w => (tt, w);
     rsa.RSA_free := fun _ w => (tt, w);
     rsa.ERR_get_error := fun w =>
       match ext w with
       | [] => (0%N, w)
       | e :: queue => (e, mkEnv (errno w) queue)
       end;
     rsa.ERR_error_string := fun e => ("error " ++ decimal (Z.of_N e))%string;
     rsa.cerr_insert := fun _ w => (tt, w);
     rsa.stdout := Ptr 3 |}.

(** ** Checked calls: building blocks *)

Section CheckCallFacts.
Context {Ext Rv Args : Type}.

Local Abbreviation RCP := (cwrap.ReturnCheckPolicy Ext Rv).
Local Abbreviation EP := (cwrap.ErrorPolicy Ext Rv).
Local Abbreviation event := (cwrap.event Rv Args).
Local Abbreviation Lib := (M event Ext).

Lemma run_eta {A} (r : run event Ext A) :
  r = mkRun (result r) (final r) (events r).
Proof. destruct r; reflexivity. Qed.

Lemma lift_eq {A} (c : code Ext A) env o env' :
  c env = (o, env') -> @lift event Ext A c env = mkRun o env' [].
Proof. intros H. unfold lift. rewrite H. reflexivity. Qed.

Lemma ret_bind {A B} (a : A) (k : A -> Lib B) env :
  bind (ret a) k env = k a env.
Proof. unfold bind, ret. simpl. symmetry. apply run_eta. Qed.

Lemma bind_returned {A B} (m : Lib A) (k : A -> Lib B) env a env' log :
  m env = mkRun (Returned a) env' log ->
  bind m k env
  = mkRun (result (k a env')) (final (k a env')) (log ++ events (k a env')).
Proof. intros H. unfold bind. rewrite H. reflexivity. Qed.

Lemma bind_thrown {A B} (m : Lib A) (k : A -> Lib B) env e env' log :
  m env = mkRun (Thrown e) env' log ->
  bind m k env = mkRun (Thrown e) env' log.
Proof. intros H. unfold bind. rewrite H. reflexivity. Qed.

Lemma bind_terminated {A B} (m : Lib A) (k : A -> Lib B) env env' log :
  m env = mkRun Terminated env' log ->
  bind m k env = mkRun Terminated env' log.
Proof. intros H. unfold bind. rewrite H. reflexivity. Qed.

(** The three entry points of checkcall.hpp are one function. *)
Lemma checked_call_hpp (w : entry_point) (R : RCP) (E : EP)
    (callable : Args -> code Ext Rv) (args : Args) :
  in_checkcall_hpp w = true ->
  checked_call w R E callable args = cwrap.CALL_CHECKED R E callable args.
Proof. destruct w; simpl; intros H; try reflexivity; discriminate. Qed.

(** checkcall.h's wrapper is checkcall.hpp's for a policy stripped of
    its hook. *)
Lemma error_CallGuard_call_eq (R : RCP) (E : EP)
    (callable : Args -> code Ext Rv) (args : Args) env :
  checked_call via_error_CallGuard R E callable args env
  = cwrap.CALL_CHECKED (without_hook R) E callable args env.
Proof.
  simpl. unfold cwrap.error.CallGuard_call, cwrap.CALL_CHECKED.
  unfold cwrap.CallIf, cwrap.HasPreCall, without_hook. simpl.
  rewrite ret_bind. reflexivity.
Qed.

(** The handler's own run. *)
Lemma call_handleError_run (E : EP) rv env o env' :
  cwrap.handleError E rv env = (o, env') ->
  @cwrap.call_handleError Ext Rv Args E rv env
  = mkRun o env' [cwrap.EvHandleError rv].
Proof.
  intros H. unfold cwrap.call_handleError.
  erewrite bind_returned by reflexivity.
  rewrite (lift_eq _ _ _ _ H). reflexivity.
Qed.

End CheckCallFacts.

Section CheckCallRuns.
Context {Ext Rv Args : Type}.

Local Abbreviation RCP := (cwrap.ReturnCheckPolicy Ext Rv).
Local Abbreviation EP := (cwrap.ErrorPolicy Ext Rv).
Local Abbreviation event := (cwrap.event Rv Args).
Local Abbreviation Lib := (M event Ext).

Variables (E : EP) (callable : Args -> code Ext Rv) (args : Args).

(** From the call of the callable on: it returns [rv], the predicate
    gives its verdict [ok], the handler runs or not. *)
Lemma call_check_handle_run (R : RCP) env0 env1 env2 rv ok :
  callable args env0 = (Returned rv, env1) ->
  cwrap.returnValueIsOk R rv env1 = (Returned ok, env2) ->
  (retVal <- cwrap.call_callable callable args ;;
   ok <- lift (cwrap.returnValueIsOk R retVal) ;;
   (if negb ok then cwrap.call_handleError E retVal else ret tt) ;;
   ret retVal) env0
  = let h := (if negb ok then cwrap.call_handleError E rv else ret tt) env2 in
    mkRun (match result h with
           | Returned _ => Returned rv
           | Thrown e => Thrown e
           | Terminated => Terminated
           end)
          (final h) (cwrap.EvCallable args :: events h).
Proof.
  intros Hcall Hok.
  assert (Hc : cwrap.call_callable callable args env0
               = mkRun (Returned rv) env1 [cwrap.EvCallable args]).
  { unfold cwrap.call_callable.
    erewrite bind_returned by reflexivity.
    rewrite (lift_eq _ _ _ _ Hcall). reflexivity. }
  rewrite (bind_returned _ _ _ _ _ _ Hc).
  rewrite (bind_returned _ _ _ _ _ _ (lift_eq _ _ _ _ Hok)).
  destruct ((if negb ok then cwrap.call_handleError E rv else ret tt) env2)
    as [o e l] eqn:Hh.
  destruct o.
  - rewrite (bind_returned _ _ _ _ _ _ Hh). simpl.
    rewrite app_nil_r. reflexivity.
  - rewrite (bind_thrown _ _ _ _ _ _ Hh). reflexivity.
  - rewrite (bind_terminated _ _ _ _ _ Hh). reflexivity.
Qed.

(** A whole invocation of [CALL_CHECKED] whose hook, if any, and whose
    callable return. *)
Lemma CALL_CHECKED_run (R : RCP) env env0 env1 env2 rv ok :
  reaches_callable via_CALL_CHECKED R env env0 ->
  callable args env0 = (Returned rv, env1) ->
  cwrap.returnValueIsOk R rv env1 = (Returned ok, env2) ->
  cwrap.CALL_CHECKED R E callable args env
  = let h := (if negb ok then cwrap.call_handleError E rv else ret tt) env2 in
    mkRun (match result h with
           | Returned _ => Returned rv
           | Thrown e => Thrown e
           | Terminated => Terminated
           end)
          (final h)
          ((if cwrap.HasPreCall R then [cwrap.EvPreCall] else [])
           ++ cwrap.EvCallable args :: events h).
Proof.
  intros Hpre Hcall Hok.
  pose proof (call_check_handle_run R env0 env1 env2 rv ok Hcall Hok) as Hbody.
  unfold cwrap.CALL_CHECKED, cwrap.CallIf, cwrap.HasPreCall.
  unfold reaches_callable in Hpre. simpl in Hpre.
  destruct (cwrap.preCall R) as [hook|].
  - assert (Hh : (emit (@cwrap.EvPreCall Rv Args) ;; lift hook) env
                 = mkRun (Returned tt) env0 [cwrap.EvPreCall]).
    { erewrite bind_returned by reflexivity.
      rewrite (lift_eq _ _ _ _ Hpre). reflexivity. }
    rewrite (bind_returned _ _ _ _ _ _ Hh). rewrite Hbody. reflexivity.
  - subst env0. rewrite ret_bind. rewrite Hbody. reflexivity.
Qed.

(** The same for every entry point; checkcall.h's enters no hook. *)
Lemma checked_call_run (w : entry_point) (R : RCP) env env0 env1 env2 rv ok :
  reaches_callable w R env env0 ->
  callable args env0 = (Returned rv, env1) ->
  cwrap.returnValueIsOk R rv env1 = (Returned ok, env2) ->
  checked_call w R E callable args env
  = let h := (if negb ok then cwrap.call_handleError E rv else ret tt) env2 in
    mkRun (match result h with
           | Returned _ => Returned rv
           | Thrown e => Thrown e
           | Terminated => Terminated
           end)
          (final h)
          ((if in_checkcall_hpp w && cwrap.HasPreCall R
            then [cwrap.EvPreCall] else [])
           ++ cwrap.EvCallable args :: events h).
Proof.
  intros Hpre Hcall Hok.
  destruct (in_checkcall_hpp w) eqn:Hw.
  - rewrite (checked_call_hpp w R E callable args Hw).
    apply CALL_CHECKED_run with (env0 := env0) (env1 := env1); auto.
    unfold reaches_callable in *. rewrite Hw in Hpre. exact Hpre.
  - destruct w; try discriminate.
    rewrite error_CallGuard_call_eq.
    unfold reaches_callable in Hpre. simpl in Hpre. subst env0.
    apply (CALL_CHECKED_run (without_hook R) env env env1 env2 rv ok);
      [reflexivity | exact Hcall | exact Hok].
Qed.

Lemma handled_pre (w : entry_point) (R : RCP) (log : list event) :
  handled ((if in_checkcall_hpp w && cwrap.HasPreCall R
            then [cwrap.EvPreCall] else []) ++ cwrap.EvCallable args :: log)
  = handled log.
Proof. destruct (in_checkcall_hpp w && cwrap.HasPreCall R); reflexivity. Qed.

End CheckCallRuns.

(** ** Checked calls: the properties *)

Section CheckCallProperties.
Context {Ext Rv Args : Type}.

Local Abbreviation RCP := (cwrap.ReturnCheckPolicy Ext Rv).
Local Abbreviation EP := (cwrap.ErrorPolicy Ext Rv).
Local Abbreviation event := (cwrap.event Rv Args).

(** Every error policy the two headers define throws whatever it is
    given. *)
Lemma builtin_error_policies_raise
    `{is_integral Rv} `{streamable Rv} (strerror : Z -> string) :
  always_raises (cwrap.ReportReturnValueErrorPolicy : EP)
  /\ always_raises (cwrap.ErrnoErrorPolicy strerror : EP)
  /\ always_raises (cwrap.ErrorCodeErrorPolicy strerror : EP)
  /\ always_raises (cwrap.error.DefaultErrorPolicy : EP)
  /\ always_raises (cwrap.error.ErrnoErrorPolicy strerror : EP)
  /\ always_raises (cwrap.error.ReturnCodeErrorPolicy strerror : EP).
Proof.
  repeat split; intros rv env; simpl; unfold throw; eauto.
Qed.

(** C2. When the success predicate is false on the value the callable
    returned, [handleError] is entered exactly once, with that value,
    and the exception it throws leaves the checked call: this holds for
    every entry point, every return-check policy and every error policy
    whose handler raises, and the error policies of both headers all
    raise. *)
Theorem C2_failure_invokes_handler_once_and_raises
    `{is_integral Rv} `{streamable Rv} (strerror : Z -> string) :
  (always_raises (cwrap.ReportReturnValueErrorPolicy : EP)
   /\ always_raises (cwrap.ErrnoErrorPolicy strerror : EP)
   /\ always_raises (cwrap.ErrorCodeErrorPolicy strerror : EP)
   /\ always_raises (cwrap.error.DefaultErrorPolicy : EP)
   /\ always_raises (cwrap.error.ErrnoErrorPolicy strerror : EP)
   /\ always_raises (cwrap.error.ReturnCodeErrorPolicy strerror : EP))
  /\ forall (w : entry_point) (R : RCP) (E : EP)
       (callable : Args -> code Ext Rv) (args : Args)
       (env env0 env1 env2 : Env Ext) (rv : Rv),
       always_raises E ->
       reaches_callable w R env env0 ->
       callable args env0 = (Returned rv, env1) ->
       cwrap.returnValueIsOk R rv env1 = (Returned false, env2) ->
       exists e env3,
         cwrap.handleError E rv env2 = (Thrown e, env3)
         /\ result (checked_call w R E callable args env) = Thrown e
         /\ final (checked_call w R E callable args env) = env3
         /\ handled (events (checked_call w R E callable args env)) = [rv].
Proof.
  split; [apply builtin_error_policies_raise|].
  intros w R E callable args env env0 env1 env2 rv HE Hpre Hcall Hok.
  destruct (HE rv env2) as (e & env3 & Hh).
  exists e, env3. split; [exact Hh|].
  rewrite (checked_call_run E callable args w R _ _ _ _ _ _ Hpre Hcall Hok).
  cbv beta iota zeta delta [negb].
  rewrite (call_handleError_run E _ _ _ _ Hh). simpl.
  rewrite handled_pre. repeat split; reflexivity.
Qed.

(** C3. When the success predicate is true on the value the callable
    returned, the checked call returns that very value and
    [handleError] is not entered; for every entry point of both
    headers. *)
Theorem C3_success_returns_value_unhandled
    (w : entry_point) (R : RCP) (E : EP)
    (callable : Args -> code Ext Rv) (args : Args)
    (env env0 env1 env2 : Env Ext) (rv : Rv) :
  reaches_callable w R env env0 ->
  callable args env0 = (Returned rv, env1) ->
  cwrap.returnValueIsOk R rv env1 = (Returned true, env2) ->
  result (checked_call w R E callable args env) = Returned rv
  /\ final (checked_call w R E callable args env) = env2
  /\ handled (events (checked_call w R E callable args env)) = [].
Proof.
  intros Hpre Hcall Hok.
  rewrite (checked_call_run E callable args w R _ _ _ _ _ _ Hpre Hcall Hok).
  simpl. rewrite handled_pre. repeat split; reflexivity.
Qed.

(** C10. When the handler of an error policy returns, the checked call
    returns the failing value as it returns a good one: nothing in
    the library stops a handler from returning. *)
Theorem C10_returning_handler_lets_failure_through
    (w : entry_point) (R : RCP) (E : EP)
    (callable : Args -> code Ext Rv) (args : Args)
    (env env0 env1 env2 env3 : Env Ext) (rv : Rv) :
  reaches_callable w R env env0 ->
  callable args env0 = (Returned rv, env1) ->
  cwrap.returnValueIsOk R rv env1 = (Returned false, env2) ->
  cwrap.handleError E rv env2 = (Returned tt, env3) ->
  result (checked_call w R E callable args env) = Returned rv
  /\ final (checked_call w R E callable args env) = env3
  /\ handled (events (checked_call w R E callable args env)) = [rv].
Proof.
  intros Hpre Hcall Hok Hh.
  rewrite (checked_call_run E callable args w R _ _ _ _ _ _ Hpre Hcall Hok).
  cbv beta iota zeta delta [negb].
  rewrite (call_handleError_run E _ _ _ _ Hh). simpl.
  rewrite handled_pre. repeat split; reflexivity.
Qed.

End CheckCallProperties.

(** *** Concrete checked calls *)

Lemma C2_failure_invokes_handler_once_and_raises_witness :
  let E : cwrap.ErrorPolicy unit int := cwrap.ReportReturnValueErrorPolicy in
  let call :=
    checked_call via_CALL_CHECKED cwrap.IsZeroReturnCheckPolicy E
                 (returning (-1)) tt (mkEnv 0 tt) in
  always_raises E
  /\ exists e env3,
       cwrap.handleError E (-1) (mkEnv 0 tt) = (Thrown e, env3)
       /\ result call = Thrown e
       /\ final call = env3
       /\ handled (events call) = [-1].
Proof.
  split.
  - exact (proj1 (proj1 (C2_failure_invokes_handler_once_and_raises
                           (Ext := unit) (Rv := int) (Args := unit)
                           (fun _ => "unknown error")))).
  - apply (proj2 (C2_failure_invokes_handler_once_and_raises
                    (Ext := unit) (Rv := int) (Args := unit)
                    (fun _ => "unknown error"))
             via_CALL_CHECKED cwrap.IsZeroReturnCheckPolicy
             cwrap.ReportReturnValueErrorPolicy (returning (-1)) tt
             (mkEnv 0 tt) (mkEnv 0 tt) (mkEnv 0 tt) (mkEnv 0 tt) (-1)).
    + intros rv env. simpl. unfold throw. eauto.
    + reflexivity.
    + reflexivity.
    + reflexivity.
Defined.

Lemma C3_success_returns_value_unhandled_witness :
  let R : cwrap.ReturnCheckPolicy unit int := cwrap.IsErrnoZeroReturnCheckPolicy in
  let E : cwrap.ErrorPolicy unit int := cwrap.ReportReturnValueErrorPolicy in
  let call := checked_call via_CallGuard R E (returning 42) tt (mkEnv 5 tt) in
  (reaches_callable via_CallGuard R (mkEnv 5 tt) (mkEnv 0 tt)
   /\ returning 42 tt (mkEnv 0 tt) = (Returned 42, mkEnv 0 tt)
   /\ cwrap.returnValueIsOk R 42 (mkEnv 0 tt) = (Returned true, mkEnv 0 tt))
  /\ result call = Returned 42
  /\ final call = mkEnv 0 tt
  /\ handled (events call) = [].
Proof.
  split.
  - repeat split; reflexivity.
  - apply (C3_success_returns_value_unhandled
             via_CallGuard cwrap.IsErrnoZeroReturnCheckPolicy
             cwrap.ReportReturnValueErrorPolicy (returning 42) tt
             (mkEnv 5 tt) (mkEnv 0 tt) (mkEnv 0 tt) (mkEnv 0 tt) 42);
      reflexivity.
Defined.

Lemma C10_returning_handler_lets_failure_through_witness :
  let R : cwrap.ReturnCheckPolicy unit int := cwrap.IsZeroReturnCheckPolicy in
  let call :=
    checked_call via_CALL_CHECKED R ReturningErrorPolicy
                 (returning (-1)) tt (mkEnv 0 tt) in
  (cwrap.returnValueIsOk R (-1) (mkEnv 0 tt) = (Returned false, mkEnv 0 tt)
   /\ cwrap.handleError ReturningErrorPolicy (-1) (mkEnv 0 tt)
      = (Returned tt, mkEnv 0 tt))
  /\ result call = Returned (-1)
  /\ final call = mkEnv 0 tt
  /\ handled (events call) = [-1].
Proof.
  split.
  - split; reflexivity.
  - apply (C10_returning_handler_lets_failure_through
             via_CALL_CHECKED cwrap.IsZeroReturnCheckPolicy
             ReturningErrorPolicy (returning (-1)) tt
             (mkEnv 0 tt) (mkEnv 0 tt) (mkEnv 0 tt) (mkEnv 0 tt) (mkEnv 0 tt)
             (-1));
      reflexivity.
Defined.

(** *** The predicates of the return-check policies *)

Section BuiltinPredicates.
Context {Ext Args : Type}.

(** C6. The predicates of checkcall.hpp: "is zero" accepts exactly 0,
    "is not zero" exactly the values other than 0, "is not negative"
    exactly the values from 0 up, "is not nullptr" exactly the pointers
    other than the null pointer.  Under the is-zero policy and the
    default error policy a callable returning 0 gives 0 to the caller
    and no handler runs; returning -1 it ends in a [std::runtime_error]
    whose message ends in -1. *)
Theorem C6_builtin_predicates_and_scenario :
  (forall Rv (I : is_integral Rv),
      @accepts_exactly Ext Rv cwrap.IsZeroReturnCheckPolicy
        (fun rv => value_of rv = 0))
  /\ (forall Rv (I : is_integral Rv) (S : is_signed Rv),
      @accepts_exactly Ext Rv cwrap.IsNotZeroReturnCheckPolicy
        (fun rv => value_of rv <> 0))
  /\ (forall Rv (I : is_integral Rv) (S : is_signed Rv),
      @accepts_exactly Ext Rv cwrap.IsNotNegativeReturnCheckPolicy
        (fun rv => 0 <= value_of rv))
  /\ @accepts_exactly Ext pointer cwrap.IsNotNullptrReturnCheckPolicy
        (fun p => p <> nullptr)
  /\ (forall (args : Args) (env : Env Ext),
      cwrap.CALL_CHECKED cwrap.IsZeroReturnCheckPolicy
        cwrap.DefaultErrorPolicy (fun _ => pure (0 : int)) args env
      = mkRun (Returned 0) env [cwrap.EvCallable args])
  /\ (forall (args : Args) (env : Env Ext),
      cwrap.CALL_CHECKED cwrap.IsZeroReturnCheckPolicy
        cwrap.DefaultErrorPolicy (fun _ => pure (-1 : int)) args env
      = mkRun (Thrown (runtime_error "Return value indicated error: -1"))
              env [cwrap.EvCallable args; cwrap.EvHandleError (-1)]).
Proof.
  split; [|split; [|split; [|split; [|split]]]].
  - intros Rv I rv env. exists (value_of rv =? 0).
    split; [reflexivity | apply Z.eqb_eq].
  - intros Rv I S rv env. exists (negb (value_of rv =? 0)).
    split; [reflexivity|]. rewrite negb_true_iff. apply Z.eqb_neq.
  - intros Rv I S rv env. exists (value_of rv >=? 0).
    split; [reflexivity | apply Z.geb_le].
  - intros [a] env. exists (negb (N.eqb a 0)).
    split; [reflexivity|]. rewrite negb_true_iff, N.eqb_neq.
    unfold nullptr. split; intros Hne Heq; apply Hne; congruence.
  - intros args env. reflexivity.
  - intros args env. reflexivity.
Qed.

End BuiltinPredicates.

Lemma C6_builtin_predicates_and_scenario_witness :
  @accepts_exactly unit int cwrap.IsNotNegativeReturnCheckPolicy
    (fun rv => 0 <= value_of rv)
  /\ @accepts_exactly unit int cwrap.IsNotZeroReturnCheckPolicy
       (fun rv => value_of rv <> 0).
Proof.
  split.
  - exact (proj1 (proj2 (proj2
             (@C6_builtin_predicates_and_scenario unit unit)))
             int int_is_integral int_is_signed).
  - exact (proj1 (proj2
             (@C6_builtin_predicates_and_scenario unit unit))
             int int_is_integral int_is_signed).
Defined.

(** The default error policy of checkcall.h builds its message in a
    stream that starts writing over the text it was constructed with. *)
Example error_DefaultErrorPolicy_message :
  cwrap.handleError (cwrap.error.DefaultErrorPolicy
                     : cwrap.ErrorPolicy unit int) (-1) (mkEnv 0 tt)
  = (Thrown (runtime_error "-1turn value indicated error. Got: "), mkEnv 0 tt).
Proof. reflexivity. Qed.

Section PredicatePurity.
Context {Ext : Type}.

(** C9, as the code has it.  The predicates that compare the return
    value (is zero, is not negative, is not zero, is not nullptr, and
    the two of checkcall.h) are decided by the return value alone and
    leave the environment untouched.  The predicate of the errno policy
    leaves the environment untouched too, but its verdict is that of
    [errno == 0]: the return value plays no part in it. *)
Theorem C9_value_predicates_pure_errno_predicate_reads_errno :
  (forall Rv (I : is_integral Rv),
      let R : cwrap.ReturnCheckPolicy Ext Rv := cwrap.IsZeroReturnCheckPolicy in
      let R' : cwrap.ReturnCheckPolicy Ext Rv :=
        cwrap.error.IsZeroReturnCheckPolicy in
      (decided_by_value R /\ side_effect_free R)
      /\ (decided_by_value R' /\ side_effect_free R'))
  /\ (forall Rv (I : is_integral Rv) (S : is_signed Rv),
      let R1 : cwrap.ReturnCheckPolicy Ext Rv :=
        cwrap.IsNotNegativeReturnCheckPolicy in
      let R2 : cwrap.ReturnCheckPolicy Ext Rv :=
        cwrap.IsNotZeroReturnCheckPolicy in
      let R3 : cwrap.ReturnCheckPolicy Ext Rv :=
        cwrap.error.IsNotNegativeReturnCheckPolicy in
      (decided_by_value R1 /\ side_effect_free R1)
      /\ (decided_by_value R2 /\ side_effect_free R2)
      /\ (decided_by_value R3 /\ side_effect_free R3))
  /\ (forall Rv (C : nullptr_comparable Rv),
      let R : cwrap.ReturnCheckPolicy Ext Rv :=
        cwrap.IsNotNullptrReturnCheckPolicy in
      decided_by_value R /\ side_effect_free R)
  /\ (forall Rv,
      let R : cwrap.ReturnCheckPolicy Ext Rv :=
        cwrap.IsErrnoZeroReturnCheckPolicy in
      side_effect_free R
      /\ forall (rv rv' : Rv) (env : Env Ext),
           cwrap.returnValueIsOk R rv env = (Returned (errno env =? 0), env)
           /\ cwrap.returnValueIsOk R rv env = cwrap.returnValueIsOk R rv' env).
Proof.
  repeat split;
    try (intros rv env1 env2; reflexivity);
    try (intros rv env; eexists; reflexivity).
Qed.

End PredicatePurity.

(** C9 as claimed fails for the errno policy: the same return value is
    accepted with [errno] at 0 and rejected with [errno] at 2 (ENOENT). *)
Lemma C9_errno_predicate_not_decided_by_value :
  ~ decided_by_value
      (cwrap.IsErrnoZeroReturnCheckPolicy : cwrap.ReturnCheckPolicy unit int).
Proof.
  intros Hpure.
  specialize (Hpure 0 (mkEnv 0 tt) (mkEnv 2 tt)).
  discriminate Hpure.
Qed.

Lemma C9_value_predicates_pure_errno_predicate_reads_errno_witness :
  let R : cwrap.ReturnCheckPolicy unit int :=
    cwrap.IsNotNegativeReturnCheckPolicy in
  decided_by_value R /\ side_effect_free R.
Proof.
  exact (proj1 (proj1 (proj2
           (@C9_value_predicates_pure_errno_predicate_reads_errno unit))
           int int_is_integral int_is_signed)).
Defined.

(** *** The pre-call hook *)

Section PreCallHook.
Context {Ext Rv Args : Type}.

Local Abbreviation RCP := (cwrap.ReturnCheckPolicy Ext Rv).
Local Abbreviation EP := (cwrap.ErrorPolicy Ext Rv).
Local Abbreviation event := (cwrap.event Rv Args).

Variables (E : EP) (callable : Args -> code Ext Rv) (args : Args).

(** From the call of the callable on, whatever happens: the callable is
    entered first, and once, and no hook is entered. *)
Lemma call_check_handle_events (R : RCP) (env0 : Env Ext) :
  let r := (retVal <- cwrap.call_callable callable args ;;
            ok <- lift (cwrap.returnValueIsOk R retVal) ;;
            (if negb ok then cwrap.call_handleError E retVal else ret tt) ;;
            ret retVal) env0 in
  exists rest,
    events r = cwrap.EvCallable args :: rest
    /\ count_preCall rest = O /\ called rest = [].
Proof.
  unfold cwrap.call_callable, cwrap.call_handleError, bind, lift, emit, ret.
  simpl.
  destruct (callable args env0) as [[rv|e|] env1]; simpl; eauto.
  destruct (cwrap.returnValueIsOk R rv env1) as [[[|]|e|] env2]; simpl; eauto.
  destruct (cwrap.handleError E rv env2) as [[[]|e|] env3]; simpl; eauto.
Qed.

(** A policy with a hook: the invocation is the hook followed, if the
    hook returns, by the invocation for the policy without it. *)
Lemma CALL_CHECKED_with_hook (R : RCP) hook (env : Env Ext) :
  cwrap.preCall R = Some hook ->
  cwrap.CALL_CHECKED R E callable args env
  = match hook env with
    | (Returned _, env0) =>
        let r0 := cwrap.CALL_CHECKED (without_hook R) E callable args env0 in
        mkRun (result r0) (final r0) (cwrap.EvPreCall :: events r0)
    | (Thrown e, env0) => mkRun (Thrown e) env0 [cwrap.EvPreCall]
    | (Terminated, env0) => mkRun Terminated env0 [cwrap.EvPreCall]
    end.
Proof.
  intros Hhook.
  unfold cwrap.CALL_CHECKED at 1, cwrap.CallIf, cwrap.HasPreCall.
  rewrite Hhook.
  destruct (hook env) as [[[]|e|] env0] eqn:Hrun.
  - assert (Hh : (emit (@cwrap.EvPreCall Rv Args) ;; lift hook) env
                 = mkRun (Returned tt) env0 [cwrap.EvPreCall]).
    { erewrite bind_returned by reflexivity.
      rewrite (lift_eq _ _ _ _ Hrun). reflexivity. }
    rewrite (bind_returned _ _ _ _ _ _ Hh).
    unfold cwrap.CALL_CHECKED, cwrap.CallIf, cwrap.HasPreCall, without_hook.
    simpl cwrap.preCall. cbv iota. rewrite ret_bind. reflexivity.
  - apply bind_thrown.
    erewrite bind_returned by reflexivity.
    rewrite (lift_eq _ _ _ _ Hrun). reflexivity.
  - apply bind_terminated.
    erewrite bind_returned by reflexivity.
    rewrite (lift_eq _ _ _ _ Hrun). reflexivity.
Qed.

Lemma CALL_CHECKED_without_hook_events (R : RCP) (env0 : Env Ext) :
  let r := cwrap.CALL_CHECKED (without_hook R) E callable args env0 in
  exists rest,
    events r = cwrap.EvCallable args :: rest
    /\ count_preCall rest = O /\ called rest = [].
Proof.
  unfold cwrap.CALL_CHECKED, cwrap.CallIf, cwrap.HasPreCall, without_hook.
  simpl cwrap.preCall. cbv iota. rewrite ret_bind.
  apply (call_check_handle_events (without_hook R)).
Qed.

(** One invocation through [CALL_CHECKED] with a policy that has a hook. *)
Lemma CALL_CHECKED_hook_once (R : RCP) hook (env : Env Ext) :
  cwrap.preCall R = Some hook ->
  let r := cwrap.CALL_CHECKED R E callable args env in
  hook_ran_once_first r
  /\ match fst (hook env) with
     | Returned _ =>
         exists rest,
           events r = cwrap.EvPreCall :: cwrap.EvCallable args :: rest
           /\ called rest = []
     | _ => events r = [cwrap.EvPreCall]
     end.
Proof.
  intros Hhook. cbv zeta.
  rewrite (CALL_CHECKED_with_hook R hook env Hhook).
  destruct (hook env) as [[[]|e|] env0]; cbv beta iota zeta; cbn [fst events].
  - destruct (CALL_CHECKED_without_hook_events R env0)
      as (rest & Hev & Hc & Ha).
    unfold hook_ran_once_first. cbn [events]. rewrite Hev. split.
    + eexists. split; [reflexivity | exact Hc].
    + exists rest. split; [reflexivity | exact Ha].
  - split; [|reflexivity]. exists []. split; reflexivity.
  - split; [|reflexivity]. exists []. split; reflexivity.
Qed.

End PreCallHook.

Section PreCallHookProperties.
Context {Ext Rv Args : Type}.

Local Abbreviation RCP := (cwrap.ReturnCheckPolicy Ext Rv).
Local Abbreviation EP := (cwrap.ErrorPolicy Ext Rv).
Local Abbreviation event := (cwrap.event Rv Args).

Lemma CallGuard_repeated_hook_once (R : RCP) (E : EP) (g : cwrap.CallGuard)
    hook (argss : list Args) :
  cwrap.preCall R = Some hook ->
  forall env : Env Ext,
    Forall hook_ran_once_first
           (call_repeatedly (cwrap.CallGuard_call R E g) argss env).
Proof.
  intros Hhook. induction argss as [|args argss IH]; intros env; simpl.
  - constructor.
  - constructor.
    + apply (CALL_CHECKED_hook_once E (cwrap._functor g) args R hook env Hhook).
    + destruct (result (cwrap.CallGuard_call R E g args env));
        [apply IH | apply IH | constructor].
Qed.

(** C5, as the code has it.  With a return-check policy that defines a
    pre-call hook, every invocation through checkcall.hpp
    ([CALL_CHECKED], [CallCheckContext], [CallGuard]) enters the hook
    exactly once and first; when the hook returns, the very next thing
    is the one call of the callable, in the environment the hook left
    (the rest of the invocation is that for the policy without its
    hook), and when the hook does not return the callable is not
    called.
    This holds for each of any number of successive invocations of one
    [CallGuard].  The [CallGuard] of checkcall.h knows of no hook and
    never enters one. *)
Theorem C5_hook_once_before_callable_in_checkcall_hpp :
  (forall (w : entry_point) (R : RCP) (E : EP)
          (callable : Args -> code Ext Rv) (args : Args) (env : Env Ext) hook,
      in_checkcall_hpp w = true ->
      cwrap.preCall R = Some hook ->
      let r := checked_call w R E callable args env in
      hook_ran_once_first r
      /\ match fst (hook env) with
         | Returned _ =>
             exists rest,
               events r = cwrap.EvPreCall :: cwrap.EvCallable args :: rest
               /\ called rest = []
         | _ => events r = [cwrap.EvPreCall]
         end
      /\ forall env0, hook env = (Returned tt, env0) ->
           let r0 := cwrap.CALL_CHECKED (without_hook R) E callable args env0 in
           r = mkRun (result r0) (final r0) (cwrap.EvPreCall :: events r0))
  /\ (forall (R : RCP) (E : EP) (g : cwrap.CallGuard)
             (argss : list Args) (env : Env Ext) hook,
      cwrap.preCall R = Some hook ->
      Forall hook_ran_once_first
             (call_repeatedly (cwrap.CallGuard_call R E g) argss env))
  /\ (forall (R : RCP) (E : EP) (g : cwrap.error.CallGuard)
             (args : Args) (env : Env Ext),
      count_preCall (events (cwrap.error.CallGuard_call R E g args env)) = O).
Proof.
  split; [|split].
  - intros w R E callable args env hook Hw Hhook.
    rewrite (checked_call_hpp w R E callable args Hw). cbv zeta.
    destruct (CALL_CHECKED_hook_once E callable args R hook env Hhook)
      as [Hfirst Hcalled].
    split; [exact Hfirst | split; [exact Hcalled|]].
    intros env0 Hrun.
    rewrite (CALL_CHECKED_with_hook E callable args R hook env Hhook).
    rewrite Hrun. reflexivity.
  - intros R E g argss env hook Hhook.
    apply (CallGuard_repeated_hook_once R E g hook argss Hhook).
  - intros R E g args env.
    destruct (call_check_handle_events E (cwrap.error._functor g) args R env)
      as (rest & Hev & Hc & _).
    unfold cwrap.error.CallGuard_call. rewrite Hev. exact Hc.
Qed.

End PreCallHookProperties.

(** C5 as claimed fails for the [CallGuard] of checkcall.h: given the
    errno policy it calls the callable without entering the hook. *)
Lemma C5_error_CallGuard_skips_hook :
  ~ hook_ran_once_first
      (checked_call via_error_CallGuard
         (cwrap.IsErrnoZeroReturnCheckPolicy : cwrap.ReturnCheckPolicy unit int)
         (cwrap.ErrnoErrorPolicy (fun _ => "No such file or directory"))
         (returning 0) tt (mkEnv 2 tt)).
Proof.
  intros [rest [Hev _]]. discriminate Hev.
Qed.

(** What the missing hook costs: with [errno] left at 2 by earlier code, a
    call that succeeds is reported as failed; through checkcall.hpp the
    same call returns. *)
Example stale_errno_through_both_CallGuards :
  let R : cwrap.ReturnCheckPolicy unit int := cwrap.IsErrnoZeroReturnCheckPolicy in
  let E := cwrap.ErrnoErrorPolicy (fun _ => "No such file or directory") in
  checked_call via_error_CallGuard R E (returning 0) tt (mkEnv 2 tt)
  = mkRun (Thrown (runtime_error "No such file or directory")) (mkEnv 2 tt)
          [cwrap.EvCallable tt; cwrap.EvHandleError 0]
  /\ checked_call via_CallGuard R E (returning 0) tt (mkEnv 2 tt)
     = mkRun (Returned 0) (mkEnv 0 tt) [cwrap.EvPreCall; cwrap.EvCallable tt].
Proof. split; reflexivity. Qed.

Lemma C5_hook_once_before_callable_in_checkcall_hpp_witness :
  let R : cwrap.ReturnCheckPolicy unit int := cwrap.IsErrnoZeroReturnCheckPolicy in
  let E : cwrap.ErrorPolicy unit int := cwrap.ReportReturnValueErrorPolicy in
  (in_checkcall_hpp via_CallGuard = true
   /\ cwrap.preCall R = Some (fun env => (Returned tt, set_errno 0 env)))
  /\ hook_ran_once_first
       (checked_call via_CallGuard R E (returning 0) tt (mkEnv 2 tt))
  /\ Forall hook_ran_once_first
       (call_repeatedly
          (cwrap.CallGuard_call R E {| cwrap._functor := returning 0 |})
          [tt; tt; tt] (mkEnv 2 tt)).
Proof.
  split; [split; reflexivity|]. split.
  - exact (proj1 (proj1 (@C5_hook_once_before_callable_in_checkcall_hpp
                           unit int unit)
                    via_CallGuard cwrap.IsErrnoZeroReturnCheckPolicy
                    cwrap.ReportReturnValueErrorPolicy (returning 0) tt
                    (mkEnv 2 tt) (fun env => (Returned tt, set_errno 0 env))
                    eq_refl eq_refl)).
  - exact (proj1 (proj2 (@C5_hook_once_before_callable_in_checkcall_hpp
                           unit int unit))
             cwrap.IsErrnoZeroReturnCheckPolicy
             cwrap.ReportReturnValueErrorPolicy
             {| cwrap._functor := returning 0 |} [tt; tt; tt] (mkEnv 2 tt)
             (fun env => (Returned tt, set_errno 0 env)) eq_refl).
Defined.

(** ** Resource guards: building blocks *)

Section GuardFacts.
Context {Ext T : Type}.

Local Abbreviation Guard := (@cppc.Guard Ext T).
Local Abbreviation event := (cppc.event T).

Variables (std : cppc.cpp_standard) (P : cppc.FreePolicyType).

(** Destroying an inert guard does nothing at all. *)
Lemma destroy_inert (g : Guard) (env : Env Ext) :
  cppc.inert g = true ->
  cppc.destroy std P g env = mkRun (Returned tt) env [].
Proof.
  intros Hi. unfold cppc.destroy, cppc.noexcept_function.
  rewrite Hi. reflexivity.
Qed.

(** Destroying a responsible guard enters its cleanup action once, on
    the guarded value, and leaves the environment as the action does. *)
Lemma destroy_responsible (A : T -> code Ext unit) (v : T) (env : Env Ext) :
  let r := cppc.destroy std P (cppc.mkGuard (cppc.target A) v false) env in
  events r = [cppc.EvCleanup v]
  /\ final r = snd (A v env)
  /\ result r = match fst (A v env) with
                | Thrown e =>
                    if cppc.destructor_is_noexcept std P
                    then Terminated else Thrown e
                | o => o
                end.
Proof.
  unfold cppc.destroy, cppc.noexcept_function, cppc.invoke.
  unfold bind, emit, lift. simpl.
  destruct (A v env) as [[[]|e|] env']; simpl;
    try (repeat split; reflexivity).
  destruct (cppc.destructor_is_noexcept std P); repeat split; reflexivity.
Qed.

(** Along a chain of moves the responsibility travels to the end. *)
Lemma move_chain_spec (n : nat) (g : Guard) :
  snd (cppc.move_chain n g) = g
  /\ List.length (fst (cppc.move_chain n g)) = n
  /\ Forall (fun b => cppc.inert b = true) (fst (cppc.move_chain n g)).
Proof.
  induction n as [|n IH]; simpl.
  - repeat split. constructor.
  - destruct g as [fp v i]. simpl in *.
    destruct (cppc.move_chain n (cppc.mkGuard fp v i)) as [behind last].
    simpl in *. destruct IH as (Hlast & Hlen & Hall).
    repeat split; [exact Hlast | now rewrite Hlen |].
    constructor; [reflexivity | exact Hall].
Qed.

(** Assigning to a responsible guard: its action runs on its value, and
    the operands change hands only if the action returns. *)
Lemma move_assign_responsible (A : T -> code Ext unit) (v : T)
    (other : Guard) (env : Env Ext) :
  let r := cppc.move_assign (cppc.mkGuard (cppc.target A) v false) other env in
  events r = [cppc.EvCleanup v]
  /\ final r = snd (A v env)
  /\ result r
     = match fst (A v env) with
       | Returned _ =>
           Returned (cppc.mkGuard (cppc.freePolicy other) (cppc.guarded other)
                                  (cppc.inert other),
                     cppc.mkGuard (cppc.freePolicy other) (cppc.guarded other)
                                  true)
       | Thrown e => Thrown e
       | Terminated => Terminated
       end.
Proof.
  unfold cppc.move_assign, cppc.invoke.
  unfold bind, emit, lift, ret. simpl.
  destruct (A v env) as [[[]|e|] env1]; simpl; repeat split; reflexivity.
Qed.

End GuardFacts.

(** ** Resource guards: the properties *)

Section GuardProperties.
Context {Ext T : Type}.

Local Abbreviation Guard := (@cppc.Guard Ext T).
Local Abbreviation event := (cppc.event T).

(** C1. A guard constructed with a cleanup action [A] and a value, and
    destroyed without having been moved from, enters [A] exactly once,
    on the guarded value, in its destructor.  A guard that was moved
    into another does nothing when destroyed, while the other enters the
    action exactly once; so along a chain of any number of moves, every
    guard left behind is inert and the last one cleans up, once. *)
Theorem C1_cleanup_once_and_moved_from_inert
    (std : cppc.cpp_standard) (P : cppc.FreePolicyType)
    (A : T -> code Ext unit) (v : T) (env : Env Ext) :
  let G : Guard := cppc.construct (cppc.target A) v in
  (events (cppc.destroy std P G env) = [cppc.EvCleanup v]
   /\ final (cppc.destroy std P G env) = snd (A v env))
  /\ (let '(G2, G') := cppc.move_construct G in
      cppc.destroy std P G' env = mkRun (Returned tt) env []
      /\ events (cppc.destroy std P G2 env) = [cppc.EvCleanup v])
  /\ forall n : nat,
       let '(behind, last) := cppc.move_chain n G in
       List.length behind = n
       /\ Forall (fun g => cppc.destroy std P g env
                           = mkRun (Returned tt) env []) behind
       /\ events (cppc.destroy std P last env) = [cppc.EvCleanup v]
       /\ final (cppc.destroy std P last env) = snd (A v env).
Proof.
  cbv zeta. unfold cppc.construct.
  destruct (destroy_responsible std P A v env) as (Hev & Hfin & _).
  split; [split; assumption|]. split.
  - simpl. split; [reflexivity | exact Hev].
  - intros n.
    destruct (move_chain_spec n (cppc.mkGuard (cppc.target A) v false))
      as (Hlast & Hlen & Hall).
    destruct (cppc.move_chain n (cppc.mkGuard (cppc.target A) v false))
      as [behind last].
    simpl in Hlast, Hlen, Hall. subst last.
    split; [exact Hlen|]. split; [|split; assumption].
    apply Forall_impl with (P := fun b => cppc.inert b = true);
      [|exact Hall].
    intros g Hg. apply destroy_inert. exact Hg.
Qed.

(** C4. A guard of the default free policy constructed without a
    cleanup action, destroyed as it is or after being handed on by any
    number of moves, leaves its destructor by [std::bad_function_call]:
    it neither returns nor ends the process, and no cleanup code
    runs. *)
Theorem C4_empty_default_policy_raises
    (std : cppc.cpp_standard) (v : T) (env : Env Ext) (n : nat) :
  cppc.destroy std cppc.DefaultFreePolicy
               (cppc.construct cppc.empty_function v) env
  = mkRun (Thrown bad_function_call) env []
  /\ cppc.destroy std cppc.DefaultFreePolicy
                  (snd (cppc.move_chain n
                          (cppc.construct cppc.empty_function v))) env
     = mkRun (Thrown bad_function_call) env [].
Proof.
  destruct (move_chain_spec n
              (cppc.construct cppc.empty_function v : Guard))
    as (Hlast & _).
  rewrite Hlast. split; reflexivity.
Qed.

(** C7. Move-assigning a new guard to a guard bound to a value [v] and
    an action [A] enters [A] exactly once, on [v], and only then does
    the guard take over the new value and action: if [A] throws, the
    assignment is left with nothing taken over.  Afterwards the
    assigned-to guard answers for the new value alone and the source is
    inert, so [v] is released once and not again. *)
Theorem C7_move_assignment_releases_old_binding_first
    (std : cppc.cpp_standard) (P : cppc.FreePolicyType)
    (A B : T -> code Ext unit) (v u : T) (env : Env Ext) :
  let this : Guard := cppc.construct (cppc.target A) v in
  let other : Guard := cppc.construct (cppc.target B) u in
  let r := cppc.move_assign this other env in
  events r = [cppc.EvCleanup v]
  /\ final r = snd (A v env)
  /\ result r
     = match fst (A v env) with
       | Returned _ =>
           Returned (cppc.construct (cppc.target B) u,
                     cppc.mkGuard (cppc.target B) u true)
       | Thrown e => Thrown e
       | Terminated => Terminated
       end
  /\ forall env',
       events (cppc.destroy std P (cppc.construct (cppc.target B) u) env')
       = [cppc.EvCleanup u]
       /\ events (cppc.destroy std P (cppc.mkGuard (cppc.target B) u true) env')
          = [].
Proof.
  cbv zeta.
  destruct (move_assign_responsible A v (cppc.construct (cppc.target B) u) env)
    as (Hev & Hfin & Hres).
  split; [exact Hev|]. split; [exact Hfin|]. split; [exact Hres|].
  intros env'. split.
  - apply (destroy_responsible std P B u env').
  - rewrite destroy_inert; reflexivity.
Qed.

End GuardProperties.

(** C8. The guard's destructor is declared [noexcept] exactly when
    invoking the cleanup action is, for every kind of cleanup-action type
    and either language standard; with the default free policy it is
    not.  The static assertions of tests/guard_test.cpp are instances:
    a function object with a [noexcept] call operator gives a [noexcept]
    destructor, a plain function pointer does not, and a function
    reference or pointer type with [noexcept] does from C++17 on. *)
Theorem C8_destructor_noexcept_iff_invocation_noexcept :
  (forall std P,
      cppc.destructor_is_noexcept std P = true
      <-> cppc.invocation_is_noexcept std P = true)
  /\ (forall std, cppc.destructor_is_noexcept std cppc.DefaultFreePolicy = false)
  /\ cppc.destructor_is_noexcept cppc.cpp17 (cppc.function_object true) = true
  /\ cppc.destructor_is_noexcept cppc.before_cpp17 (cppc.function_object true)
     = true
  /\ cppc.destructor_is_noexcept cppc.before_cpp17
       (cppc.function_reference true) = false
  /\ cppc.destructor_is_noexcept cppc.before_cpp17
       (cppc.function_pointer true) = false
  /\ cppc.destructor_is_noexcept cppc.cpp17 (cppc.function_reference true)
     = true
  /\ cppc.destructor_is_noexcept cppc.cpp17 (cppc.function_pointer true) = true
  /\ (forall std,
      cppc.destructor_is_noexcept std (cppc.function_pointer false) = false).
Proof.
  split.
  - intros std P. induction P as [|b|b|b|P IH]; simpl;
      try reflexivity; try exact IH;
      destruct std, b; simpl; split; auto.
  - repeat split; intros []; reflexivity.
Qed.

(** *** The runtime tests of tests/guard_test.cpp *)

(** testFunctionPointerAsFreeFunc: nothing is freed while the guard
    lives; deleting the guard frees the resource. *)
Example testFunctionPointerAsFreeFunc :
  let guard := cppc.construct free_resources_pointer 7%nat in
  cppc.get guard = 7%nat
  /\ cppc.destroy cppc.cpp17 (cppc.function_pointer false) guard (mkEnv 0 0%nat)
     = mkRun (Returned tt) (mkEnv 0 1%nat) [cppc.EvCleanup 7%nat].
Proof. split; reflexivity. Qed.

(** testThatDefaulFreePolicyThrowsIfEmpty *)
Example testThatDefaulFreePolicyThrowsIfEmpty :
  cppc.destroy cppc.cpp17 cppc.DefaultFreePolicy
               (cppc.construct cppc.empty_function 0%nat) (mkEnv 0 0%nat)
  = mkRun (Thrown bad_function_call) (mkEnv 0 0%nat) [].
Proof. reflexivity. Qed.

(** testMoveConstruction: ASSERT_NUM_CALLED(releaseResourcesFunc, 1) *)
Example testMoveConstruction :
  ext (final (testMoveConstruction_body cppc.cpp17 (mkEnv 0 0%nat))) = 1%nat
  /\ result (testMoveConstruction_body cppc.cpp17 (mkEnv 0 0%nat)) = Returned tt.
Proof. split; reflexivity. Qed.

(** testMoveAssignment: ASSERT_NUM_CALLED(releaseResourcesFunc, 2) *)
Example testMoveAssignment :
  ext (final (testMoveAssignment_body cppc.cpp17 (mkEnv 0 0%nat))) = 2%nat
  /\ result (testMoveAssignment_body cppc.cpp17 (mkEnv 0 0%nat)) = Returned tt.
Proof. split; reflexivity. Qed.

(** ** Checked calls: what else the code shows *)

Section MoreCheckCall.
Context {Ext Rv Args : Type}.

Local Abbreviation RCP := (cwrap.ReturnCheckPolicy Ext Rv).
Local Abbreviation EP := (cwrap.ErrorPolicy Ext Rv).
Local Abbreviation event := (cwrap.event Rv Args).

Lemma CALL_CHECKED_without_hook_eq (R : RCP) (E : EP)
    (callable : Args -> code Ext Rv) (args : Args) (env0 : Env Ext) :
  cwrap.CALL_CHECKED (without_hook R) E callable args env0
  = (retVal <- cwrap.call_callable callable args ;;
     ok <- lift (cwrap.returnValueIsOk R retVal) ;;
     (if negb ok then cwrap.call_handleError E retVal else ret tt) ;;
     ret retVal) env0.
Proof.
  unfold cwrap.CALL_CHECKED, cwrap.CallIf, cwrap.HasPreCall, without_hook.
  simpl cwrap.preCall. cbv iota. rewrite ret_bind. reflexivity.
Qed.

Lemma policy_without_hook (R : RCP) :
  cwrap.preCall R = None -> without_hook R = R.
Proof. destruct R as [ok pre]. simpl. intros ->. reflexivity. Qed.

Lemma call_check_handle_well_behaved (R : RCP) (E : EP)
    (callable : Args -> code Ext Rv) (args : Args) (env0 : Env Ext) :
  well_behaved R callable args
    ((retVal <- cwrap.call_callable callable args ;;
      ok <- lift (cwrap.returnValueIsOk R retVal) ;;
      (if negb ok then cwrap.call_handleError E retVal else ret tt) ;;
      ret retVal) env0).
Proof.
  unfold well_behaved.
  unfold cwrap.call_callable, cwrap.call_handleError, bind, lift, emit, ret.
  simpl.
  destruct (callable args env0) as [[rv|e|] env1] eqn:Hc; simpl;
    try (split; [left; reflexivity | split; [discriminate | lia]]).
  destruct (cwrap.returnValueIsOk R rv env1) as [[[|]|e|] env2] eqn:Hok;
    simpl;
    try (split; [left; reflexivity | split; [discriminate | lia]]).
  - split; [left; reflexivity|]. split; [|lia].
    intros rv' Hr. inversion Hr; subst. eauto.
  - destruct (cwrap.handleError E rv env2) as [[[]|e|] env3]; simpl;
      (split; [right; exists rv, env0, env1, env2; auto|]);
      (split; [|lia]); intros rv' Hr; inversion Hr; subst; eauto.
Qed.

Lemma CALL_CHECKED_well_behaved (R : RCP) (E : EP)
    (callable : Args -> code Ext Rv) (args : Args) (env : Env Ext) :
  well_behaved R callable args (cwrap.CALL_CHECKED R E callable args env).
Proof.
  destruct (cwrap.preCall R) as [hook|] eqn:Hhook.
  - rewrite (CALL_CHECKED_with_hook E callable args R hook env Hhook).
    destruct (hook env) as [[[]|e|] env0].
    + rewrite CALL_CHECKED_without_hook_eq.
      destruct (call_check_handle_well_behaved R E callable args env0)
        as (Hh & Hr & Hc).
      unfold well_behaved. cbn [result events final handled called].
      repeat split; assumption.
    + unfold well_behaved. cbn. split; [left; reflexivity|].
      split; [discriminate | lia].
    + unfold well_behaved. cbn. split; [left; reflexivity|].
      split; [discriminate | lia].
  - rewrite <- (policy_without_hook R Hhook) at 2.
    rewrite CALL_CHECKED_without_hook_eq.
    apply call_check_handle_well_behaved.
Qed.

(** The callable throws: nothing after it runs. *)
Lemma CALL_CHECKED_callable_throws (R : RCP) (E : EP)
    (callable : Args -> code Ext Rv) (args : Args)
    (env env0 env1 : Env Ext) (e : exception) :
  reaches_callable via_CALL_CHECKED R env env0 ->
  callable args env0 = (Thrown e, env1) ->
  cwrap.CALL_CHECKED R E callable args env
  = mkRun (Thrown e) env1
          ((if cwrap.HasPreCall R then [cwrap.EvPreCall] else [])
           ++ [cwrap.EvCallable args]).
Proof.
  intros Hpre Hcall.
  assert (Hbody : forall R' : RCP,
      (retVal <- cwrap.call_callable callable args ;;
       ok <- lift (cwrap.returnValueIsOk R' retVal) ;;
       (if negb ok then cwrap.call_handleError E retVal else ret tt) ;;
       ret retVal) env0
      = mkRun (Thrown e) env1 [cwrap.EvCallable args]).
  { intros R'. apply bind_thrown. unfold cwrap.call_callable.
    erewrite bind_returned by reflexivity.
    rewrite (lift_eq _ _ _ _ Hcall). reflexivity. }
  unfold reaches_callable in Hpre. simpl in Hpre. unfold cwrap.HasPreCall.
  destruct (cwrap.preCall R) as [hook|] eqn:Hhook.
  - rewrite (CALL_CHECKED_with_hook E callable args R hook env Hhook).
    rewrite Hpre. rewrite CALL_CHECKED_without_hook_eq. rewrite Hbody.
    reflexivity.
  - subst env0. rewrite <- (policy_without_hook R Hhook) at 1.
    rewrite CALL_CHECKED_without_hook_eq. rewrite Hbody. reflexivity.
Qed.

(** X1. Whatever the policies and the callable do, a checked call calls
    the callable at most once, enters [handleError] at most once and only
    with a value the callable returned and the predicate rejected, and
    returns to its caller nothing but a value the callable returned. *)
Theorem X1_handler_only_on_rejected_return_value
    (w : entry_point) (R : RCP) (E : EP)
    (callable : Args -> code Ext Rv) (args : Args) (env : Env Ext) :
  let r := checked_call w R E callable args env in
  (handled (events r) = []
   \/ exists rv env0 env1 env2,
        callable args env0 = (Returned rv, env1)
        /\ cwrap.returnValueIsOk R rv env1 = (Returned false, env2)
        /\ handled (events r) = [rv])
  /\ (forall rv, result r = Returned rv ->
        exists env0 env1, callable args env0 = (Returned rv, env1))
  /\ (List.length (called (events r)) <= 1)%nat.
Proof.
  destruct (in_checkcall_hpp w) eqn:Hw.
  - rewrite (checked_call_hpp w R E callable args Hw).
    apply (CALL_CHECKED_well_behaved R E callable args env).
  - destruct w; try discriminate. cbv zeta.
    rewrite error_CallGuard_call_eq.
    apply (CALL_CHECKED_well_behaved (without_hook R) E callable args env).
Qed.

(** X2. An exception thrown by the callable leaves the checked call as
    it is: the predicate is not asked and [handleError] is not entered. *)
Theorem X2_callable_exception_propagates
    (w : entry_point) (R : RCP) (E : EP)
    (callable : Args -> code Ext Rv) (args : Args)
    (env env0 env1 : Env Ext) (e : exception) :
  reaches_callable w R env env0 ->
  callable args env0 = (Thrown e, env1) ->
  result (checked_call w R E callable args env) = Thrown e
  /\ final (checked_call w R E callable args env) = env1
  /\ handled (events (checked_call w R E callable args env)) = [].
Proof.
  intros Hpre Hcall.
  destruct (in_checkcall_hpp w) eqn:Hw.
  - rewrite (checked_call_hpp w R E callable args Hw).
    unfold reaches_callable in Hpre. rewrite Hw in Hpre.
    rewrite (CALL_CHECKED_callable_throws R E callable args env env0 env1 e
               Hpre Hcall).
    destruct (cwrap.HasPreCall R); repeat split.
  - destruct w; try discriminate. rewrite error_CallGuard_call_eq.
    rewrite (CALL_CHECKED_callable_throws (without_hook R) E callable args
               env env0 env1 e Hpre Hcall).
    repeat split.
Qed.

(** X3. Through checkcall.hpp, an exception thrown by the pre-call hook
    leaves the checked call at once: the callable is not called. *)
Theorem X3_hook_exception_propagates
    (w : entry_point) (R : RCP) (E : EP)
    (callable : Args -> code Ext Rv) (args : Args)
    (env env1 : Env Ext) hook (e : exception) :
  in_checkcall_hpp w = true ->
  cwrap.preCall R = Some hook ->
  hook env = (Thrown e, env1) ->
  checked_call w R E callable args env
  = mkRun (Thrown e) env1 [cwrap.EvPreCall].
Proof.
  intros Hw Hhook Hrun.
  rewrite (checked_call_hpp w R E callable args Hw).
  rewrite (CALL_CHECKED_with_hook E callable args R hook env Hhook).
  rewrite Hrun. reflexivity.
Qed.

(** X4. Under the errno policy the value [errno] has when [CALL_CHECKED]
    is entered plays no part: result, final state and log are the same
    for every such value. *)
Theorem X4_IsErrnoZero_ignores_stale_errno (E : EP)
    (callable : Args -> code Ext Rv) (args : Args) (env : Env Ext) (v : Z) :
  cwrap.CALL_CHECKED cwrap.IsErrnoZeroReturnCheckPolicy E callable args
                     (set_errno v env)
  = cwrap.CALL_CHECKED cwrap.IsErrnoZeroReturnCheckPolicy E callable args env.
Proof.
  rewrite !(CALL_CHECKED_with_hook E callable args
              cwrap.IsErrnoZeroReturnCheckPolicy
              (fun env => (Returned tt, set_errno 0 env)) _ eq_refl).
  reflexivity.
Qed.

(** X5. The errno policy with the errno error policy: the call returns
    the callable's value when the callable leaves [errno] at 0, and
    otherwise throws a [std::runtime_error] whose text is [strerror] of
    the [errno] the callable left. *)
Theorem X5_errno_policies_report_errno (strerror : Z -> string)
    (callable : Args -> code Ext Rv) (args : Args)
    (env env1 : Env Ext) (rv : Rv) :
  callable args (set_errno 0 env) = (Returned rv, env1) ->
  let r := cwrap.CALL_CHECKED cwrap.IsErrnoZeroReturnCheckPolicy
             (cwrap.ErrnoErrorPolicy strerror) callable args env in
  final r = env1
  /\ result r = if errno env1 =? 0 then Returned rv
                else Thrown (runtime_error (strerror (errno env1))).
Proof.
  intros Hcall. cbv zeta.
  rewrite (CALL_CHECKED_run (cwrap.ErrnoErrorPolicy strerror) callable args
             cwrap.IsErrnoZeroReturnCheckPolicy env (set_errno 0 env) env1 env1
             rv (errno env1 =? 0) eq_refl Hcall eq_refl).
  destruct (errno env1 =? 0); simpl; split; reflexivity.
Qed.


(** X7. For a return-check policy without a pre-call hook the
    [CallGuard] of checkcall.h and the [CallGuard] of checkcall.hpp are
    the same: same result, same final state, same log. *)
Theorem X7_error_CallGuard_agrees_without_hook (R : RCP) (E : EP)
    (g : cwrap.error.CallGuard) (args : Args) (env : Env Ext) :
  cwrap.preCall R = None ->
  cwrap.error.CallGuard_call R E g args env
  = cwrap.CallGuard_call R E {| cwrap._functor := cwrap.error._functor g |}
                         args env.
Proof.
  intros Hnone.
  pose proof (error_CallGuard_call_eq R E (cwrap.error._functor g) args env)
    as Heq.
  simpl in Heq. destruct g as [f]. simpl in *. rewrite Heq.
  unfold cwrap.CallGuard_call. simpl.
  destruct R as [ok pre]. simpl in Hnone. subst pre. reflexivity.
Qed.

End MoreCheckCall.

Lemma X2_callable_exception_propagates_witness :
  let R : cwrap.ReturnCheckPolicy unit int := cwrap.IsErrnoZeroReturnCheckPolicy in
  let E : cwrap.ErrorPolicy unit int := cwrap.ReportReturnValueErrorPolicy in
  let call := checked_call via_CALL_CHECKED R E (throwing 7) tt (mkEnv 2 tt) in
  (reaches_callable via_CALL_CHECKED R (mkEnv 2 tt) (mkEnv 0 tt)
   /\ throwing 7 tt (mkEnv 0 tt) = (Thrown (foreign_exception 7), mkEnv 0 tt))
  /\ result call = Thrown (foreign_exception 7)
  /\ final call = mkEnv 0 tt
  /\ handled (events call) = [].
Proof.
  split; [split; reflexivity|].
  apply (X2_callable_exception_propagates
           via_CALL_CHECKED cwrap.IsErrnoZeroReturnCheckPolicy
           cwrap.ReportReturnValueErrorPolicy (throwing 7) tt
           (mkEnv 2 tt) (mkEnv 0 tt) (mkEnv 0 tt) (foreign_exception 7));
    reflexivity.
Defined.

Lemma X3_hook_exception_propagates_witness :
  let E : cwrap.ErrorPolicy unit int := cwrap.ReportReturnValueErrorPolicy in
  (in_checkcall_hpp via_CallGuard = true
   /\ cwrap.preCall ThrowingHookPolicy = Some (throw (foreign_exception 1)))
  /\ checked_call via_CallGuard ThrowingHookPolicy E (returning 0) tt
                  (mkEnv 0 tt)
     = mkRun (Thrown (foreign_exception 1)) (mkEnv 0 tt) [cwrap.EvPreCall].
Proof.
  split; [split; reflexivity|].
  apply (X3_hook_exception_propagates
           via_CallGuard ThrowingHookPolicy cwrap.ReportReturnValueErrorPolicy
           (returning 0) tt (mkEnv 0 tt) (mkEnv 0 tt)
           (throw (foreign_exception 1)) (foreign_exception 1));
    reflexivity.
Defined.

Lemma X5_errno_policies_report_errno_witness :
  let strerror := fun e : Z => ("errno " ++ decimal e)%string in
  let r := cwrap.CALL_CHECKED cwrap.IsErrnoZeroReturnCheckPolicy
             (cwrap.ErrnoErrorPolicy strerror) (setting_errno 2 0) tt
             (mkEnv 13 tt) in
  setting_errno 2 0 tt (set_errno 0 (mkEnv 13 tt)) = (Returned 0, mkEnv 2 tt)
  /\ final r = mkEnv 2 tt
  /\ result r = Thrown (runtime_error "errno 2").
Proof.
  split; [reflexivity|].
  apply (X5_errno_policies_report_errno
           (fun e : Z => ("errno " ++ decimal e)%string)
           (setting_errno 2 0) tt (mkEnv 13 tt) (mkEnv 2 tt) 0).
  reflexivity.
Defined.


Lemma X7_error_CallGuard_agrees_without_hook_witness :
  let R : cwrap.ReturnCheckPolicy unit int := cwrap.IsZeroReturnCheckPolicy in
  let E : cwrap.ErrorPolicy unit int := cwrap.ReportReturnValueErrorPolicy in
  cwrap.preCall R = None
  /\ cwrap.error.CallGuard_call R E
       {| cwrap.error._functor := returning (-1) |} tt (mkEnv 0 tt)
     = cwrap.CallGuard_call R E {| cwrap._functor := returning (-1) |} tt
                            (mkEnv 0 tt).
Proof.
  split; [reflexivity|].
  apply (X7_error_CallGuard_agrees_without_hook
           cwrap.IsZeroReturnCheckPolicy cwrap.ReportReturnValueErrorPolicy
           {| cwrap.error._functor := returning (-1) |} tt (mkEnv 0 tt)).
  reflexivity.
Defined.

(** *** The message of checkcall.h's default error policy *)

Lemma string_length_append (s1 s2 : string) :
  String.length (s1 ++ s2) = (String.length s1 + String.length s2)%nat.
Proof. induction s1 as [|c s1 IH]; simpl; [reflexivity | now rewrite IH]. Qed.

Lemma string_length_substring (s : string) (n m : nat) :
  String.length (substring n m s) = Nat.min m (String.length s - n).
Proof.
  revert n m. induction s as [|c s IH]; intros n m.
  - destruct n, m; reflexivity.
  - destruct n as [|n].
    + destruct m as [|m]; simpl; [reflexivity|].
      rewrite IH. rewrite Nat.sub_0_r. reflexivity.
    + simpl. apply IH.
Qed.

Lemma string_get_beyond (s : string) (i : nat) :
  (String.length s <= i)%nat -> get i s = None.
Proof.
  revert i. induction s as [|c s IH]; intros i Hi; [reflexivity|].
  destruct i as [|i]; simpl in *; [lia|]. apply IH. lia.
Qed.

(** What a stream constructed from [init] holds after [s] was written to
    it: [s] over the first characters, the rest of [init] behind it. *)
Lemma ostringstream_put_overwrites (init s : string) :
  String.length (cwrap.error.ostringstream_put init s)
  = Nat.max (String.length init) (String.length s)
  /\ forall i : nat,
       get i (cwrap.error.ostringstream_put init s)
       = if (i <? String.length s)%nat then get i s else get i init.
Proof.
  unfold cwrap.error.ostringstream_put. split.
  - rewrite string_length_append, string_length_substring. lia.
  - intros i. destruct (Nat.ltb_spec i (String.length s)) as [Hlt|Hge].
    + symmetry. apply append_correct1. exact Hlt.
    + replace i with ((i - String.length s) + String.length s)%nat at 1 by lia.
      rewrite <- append_correct2.
      destruct (Nat.lt_ge_cases (i - String.length s)
                  (String.length init - String.length s)) as [Hin|Hout].
      * rewrite substring_correct1 by exact Hin.
        f_equal. lia.
      * rewrite substring_correct2 by exact Hout.
        symmetry. apply string_get_beyond. lia.
Qed.

(** X8. The default error policy of checkcall.h throws a
    [std::runtime_error] whose text is the printed return value written
    over the beginning of "Return value indicated error. Got: ": the
    value comes first, and only what is left of the fixed text beyond
    the value's length follows it. *)
Theorem X8_error_DefaultErrorPolicy_overwrites_its_text
    {Ext Rv} `{streamable Rv} (rv : Rv) (env : Env Ext) :
  exists what,
    cwrap.handleError cwrap.error.DefaultErrorPolicy rv env
    = (Thrown (runtime_error what), env)
    /\ String.length what = Nat.max 35 (String.length (to_text rv))
    /\ forall i : nat,
         get i what
         = if (i <? String.length (to_text rv))%nat then get i (to_text rv)
           else get i "Return value indicated error. Got: ".
Proof.
  eexists. split; [reflexivity|].
  exact (ostringstream_put_overwrites "Return value indicated error. Got: "
           (to_text rv)).
Qed.

(** ** examples/rsa.cpp: building blocks *)

Section MonadLaws.
Context {Ev Ext : Type}.

Lemma bind_assoc {A B C} (m : M Ev Ext A) (k : A -> M Ev Ext B)
    (h : B -> M Ev Ext C) env :
  bind (bind m k) h env = bind m (fun a => bind (k a) h) env.
Proof.
  unfold bind. destruct (m env) as [[a|e|] env1 l1]; simpl; try reflexivity.
  destruct (k a env1) as [[b|e|] env2 l2]; simpl; try reflexivity.
  rewrite app_assoc. reflexivity.
Qed.

End MonadLaws.

Section ProgramFacts.
Context {World : Type}.
Variable api : @rsa.API World.

Local Abbreviation Traced := (@rsa.Traced World).
Local Abbreviation Prog := (M Empty_set Traced).

(** A traced call of a C function, as client code and as a statement. *)
Lemma traced_run {A} (f : rsa.cfun A) ev (env : Env Traced) a w' :
  f (mkEnv (errno env) (fst (ext env))) = (a, w') ->
  rsa.traced f ev env
  = (Returned a, mkEnv (errno w') (ext w', snd (ext env) ++ [ev a])).
Proof.
  intros H. unfold rsa.traced, rsa.Traced in *. rewrite H. reflexivity.
Qed.

Lemma lift_traced {A} (f : rsa.cfun A) ev (env : Env Traced) a w' :
  f (mkEnv (errno env) (fst (ext env))) = (a, w') ->
  @lift Empty_set Traced A (rsa.traced f ev) env
  = mkRun (Returned a) (mkEnv (errno w') (ext w', snd (ext env) ++ [ev a])) [].
Proof.
  intros H. unfold lift, rsa.traced, rsa.Traced in *. rewrite H. reflexivity.
Qed.

Lemma bind_traced {A B} (f : rsa.cfun A) ev (k : A -> Prog B) env a w' :
  f (mkEnv (errno env) (fst (ext env))) = (a, w') ->
  bind (lift (rsa.traced f ev)) k env
  = k a (mkEnv (errno w') (ext w', snd (ext env) ++ [ev a])).
Proof.
  intros H. unfold bind, lift, rsa.traced, rsa.Traced in *. rewrite H. simpl.
  destruct (k a _) as [o e l]. destruct l as [|[] ?]. reflexivity.
Qed.

(** The throw statement: two error codes are taken off the queue, and the
    exception carries the text made of them, whatever type the
    surrounding expression has. *)
Lemma throw_openssl_error_run (o : bool) (env : Env Traced) :
  exists e1 e2 w',
    forall A,
      @rsa.throw_openssl_error World api A o env
      = (Thrown (runtime_error (openssl_message api o e1 e2)),
         mkEnv (errno w')
               (ext w', snd (ext env)
                        ++ [rsa.Ev_ERR_get_error e1; rsa.Ev_ERR_get_error e2])).
Proof.
  unfold rsa.throw_openssl_error, rsa.and_then, rsa.c_ERR_get_error.
  unfold rsa.traced, rsa.Traced in *.
  destruct (rsa.ERR_get_error api _) as [e1 w1]. simpl.
  destruct (rsa.ERR_get_error api _) as [e2 w2].
  exists e1, e2, w2. intros A. unfold throw, openssl_message.
  rewrite <- app_assoc. reflexivity.
Qed.

Lemma lift_throw_run (o : bool) (env : Env Traced) :
  exists e1 e2 w',
    forall A,
      @lift Empty_set Traced A (rsa.throw_openssl_error api o) env
      = mkRun (Thrown (runtime_error (openssl_message api o e1 e2)))
              (mkEnv (errno w')
                 (ext w', snd (ext env)
                          ++ [rsa.Ev_ERR_get_error e1; rsa.Ev_ERR_get_error e2]))
              [].
Proof.
  destruct (throw_openssl_error_run o env) as (e1 & e2 & w' & H).
  exists e1, e2, w'. intros A. unfold lift. rewrite (H A). reflexivity.
Qed.

(** A statement [ct::CALL_CHECKED(f, args...)] is the call followed, when
    it returns 0, by the throw statement of the hand-written variant. *)
Lemma bind_ct {Args B} (o : bool) (callable : Args -> code Traced int)
    (args : Args) (k : int -> Prog B) env a env1 :
  callable args env = (Returned a, env1) ->
  bind (rsa.ct_CALL_CHECKED api o callable args) k env
  = if a =? 0 then lift (rsa.throw_openssl_error api o) env1 else k a env1.
Proof.
  intros Hcall.
  destruct (throw_openssl_error_run o env1) as (e1 & e2 & w' & Hthrow).
  assert (Hrun : rsa.ct_CALL_CHECKED api o callable args env
                 = if a =? 0 then lift (rsa.throw_openssl_error api o) env1
                   else mkRun (Returned a) env1 []).
  { unfold rsa.ct_CALL_CHECKED, rsa.silence, cwrap.CallCheckContext_CALL_CHECKED.
    rewrite (CALL_CHECKED_run (rsa.OpenSSLErrorPolicy api o) callable args
               (@cwrap.IsNotZeroReturnCheckPolicy _ int int_is_integral
                  int_is_signed)
               env env env1 env1 a (negb (a =? 0)) eq_refl Hcall eq_refl).
    rewrite negb_involutive. destruct (a =? 0).
    - cbv zeta.
      rewrite (call_handleError_run (rsa.OpenSSLErrorPolicy api o) a env1
                 _ _ (Hthrow unit)).
      unfold lift. rewrite (Hthrow int). reflexivity.
    - reflexivity. }
  unfold bind. rewrite Hrun. destruct (a =? 0).
  - unfold lift. rewrite (Hthrow int), (Hthrow B). reflexivity.
  - simpl. destruct (k a env1) as [o' e' l']. simpl.
    destruct l' as [|[] ?]. reflexivity.
Qed.

(** The same for [ct_ptr::CALL_CHECKED] and the null pointer. *)
Lemma bind_ct_ptr {Args B} (o : bool) (callable : Args -> code Traced pointer)
    (args : Args) (k : pointer -> Prog B) env p env1 :
  callable args env = (Returned p, env1) ->
  bind (rsa.ct_ptr_CALL_CHECKED api o callable args) k env
  = if is_nullptr p then lift (rsa.throw_openssl_error api o) env1
    else k p env1.
Proof.
  intros Hcall.
  destruct (throw_openssl_error_run o env1) as (e1 & e2 & w' & Hthrow).
  assert (Hrun : rsa.ct_ptr_CALL_CHECKED api o callable args env
                 = if is_nullptr p
                   then lift (rsa.throw_openssl_error api o) env1
                   else mkRun (Returned p) env1 []).
  { unfold rsa.ct_ptr_CALL_CHECKED, rsa.silence,
      cwrap.CallCheckContext_CALL_CHECKED.
    rewrite (CALL_CHECKED_run (rsa.OpenSSLErrorPolicy api o) callable args
               (@cwrap.IsNotNullptrReturnCheckPolicy _ pointer
                  pointer_nullptr_comparable)
               env env env1 env1 p (negb (is_nullptr p)) eq_refl Hcall
               eq_refl).
    rewrite negb_involutive. destruct (is_nullptr p).
    - cbv zeta.
      rewrite (call_handleError_run (rsa.OpenSSLErrorPolicy api o) p env1
                 _ _ (Hthrow unit)).
      unfold lift. rewrite (Hthrow pointer). reflexivity.
    - reflexivity. }
  unfold bind. rewrite Hrun. destruct (is_nullptr p).
  - unfold lift. rewrite (Hthrow pointer), (Hthrow B). reflexivity.
  - simpl. destruct (k p env1) as [o' e' l']. simpl.
    destruct l' as [|[] ?]. reflexivity.
Qed.

Lemma bind_ct_traced {Args B} (o : bool) (f : rsa.cfun int) ev
    (callable : Args -> code Traced int) (args : Args) (k : int -> Prog B)
    env a w' :
  callable args = rsa.traced f ev ->
  f (mkEnv (errno env) (fst (ext env))) = (a, w') ->
  bind (rsa.ct_CALL_CHECKED api o callable args) k env
  = if a =? 0
    then lift (rsa.throw_openssl_error api o)
              (mkEnv (errno w') (ext w', snd (ext env) ++ [ev a]))
    else k a (mkEnv (errno w') (ext w', snd (ext env) ++ [ev a])).
Proof.
  intros Hc H. apply bind_ct. rewrite Hc. apply traced_run. exact H.
Qed.

Lemma bind_ct_ptr_traced {Args B} (o : bool) (f : rsa.cfun pointer) ev
    (callable : Args -> code Traced pointer) (args : Args)
    (k : pointer -> Prog B) env p w' :
  callable args = rsa.traced f ev ->
  f (mkEnv (errno env) (fst (ext env))) = (p, w') ->
  bind (rsa.ct_ptr_CALL_CHECKED api o callable args) k env
  = if is_nullptr p
    then lift (rsa.throw_openssl_error api o)
              (mkEnv (errno w') (ext w', snd (ext env) ++ [ev p]))
    else k p (mkEnv (errno w') (ext w', snd (ext env) ++ [ev p])).
Proof.
  intros Hc H. apply bind_ct_ptr. rewrite Hc. apply traced_run. exact H.
Qed.

(** The destructor of a guard that is responsible for [p] is one call of
    the deleter on [p]. *)
Lemma guard_destructor_run (std : cppc.cpp_standard)
    (deleter : pointer -> code Traced unit) (p : pointer) (env : Env Traced) :
  rsa.guard_destructor std (cppc.construct (cppc.target deleter) p) env
  = lift (deleter p) env.
Proof.
  unfold rsa.guard_destructor, rsa.silence, rsa.quiet, cppc.destroy.
  unfold cppc.noexcept_function, cppc.construct, cppc.invoke. simpl.
  unfold bind, emit, lift. simpl.
  destruct (deleter p env) as [[[]|e|] env']; reflexivity.
Qed.

Lemma text_newline_nonempty (s : string) :
  (s ++ rsa.newline ++ "")%string <> "".
Proof. destruct s; discriminate. Qed.

End ProgramFacts.

(** Running a program of the example symbolically: each call of a C
    function is given a name for its result, each test is decided both
    ways, each destructor runs where its block is left. *)
Ltac api_result f env tac :=
  lazymatch goal with
  | H : f (mkEnv (errno env) (fst (ext env))) = (?a, ?w) |- _ => tac a w H
  | _ =>
      let a := fresh "a" in
      let w := fresh "w" in
      let H := fresh "Hcall" in
      destruct (f (mkEnv (errno env) (fst (ext env)))) as [a w] eqn:H;
      tac a w H
  end.

Ltac tidy :=
  cbv beta iota zeta;
  cbn [errno ext fst snd rsa.start app result final
       rsa.leave_scope rsa.after_destructor].

Ltac exec_step api :=
  match goal with
  | |- context [(if ?c then _ else _)] =>
      lazymatch goal with
      | H : c = _ |- _ => rewrite H
      | _ => destruct c eqn:?
      end; tidy
  | |- context [bind (bind ?m ?k) ?h ?env] =>
      rewrite (bind_assoc m k h env)
  | |- context [bind (lift (rsa.traced ?f ?ev)) ?k ?env] =>
      api_result f env
        ltac:(fun a w H => rewrite (bind_traced f ev k env a w H)); tidy
  | |- context [bind (rsa.ct_CALL_CHECKED api ?o ?callable ?args) ?k ?env] =>
      let c := eval cbv beta iota delta
                 [fst snd cppc.get cppc.guarded cppc.construct] in
               (callable args) in
      lazymatch c with
      | rsa.traced ?f ?ev =>
          api_result f env
            ltac:(fun a w H =>
              rewrite (bind_ct_traced api o f ev callable args k env a w
                         eq_refl H))
      end; tidy
  | |- context [bind (rsa.ct_ptr_CALL_CHECKED api ?o ?callable ?args) ?k ?env] =>
      let c := eval cbv beta iota delta
                 [fst snd cppc.get cppc.guarded cppc.construct] in
               (callable args) in
      lazymatch c with
      | rsa.traced ?f ?ev =>
          api_result f env
            ltac:(fun a w H =>
              rewrite (bind_ct_ptr_traced api o f ev callable args k env a w
                         eq_refl H))
      end; tidy
  | |- context [rsa.guard_destructor ?std
                  (cppc.construct (cppc.target ?d) ?p) ?env] =>
      rewrite (guard_destructor_run std d p env); tidy
  | |- context [@lift _ _ _ (rsa.traced ?f ?ev) ?env] =>
      api_result f env
        ltac:(fun a w H => rewrite (lift_traced f ev env a w H)); tidy
  | |- context [@lift _ _ _ (rsa.throw_openssl_error api ?o) ?env] =>
      lazymatch goal with
      | H : forall A, @lift _ _ A (rsa.throw_openssl_error api o) env = _
        |- _ => rewrite !H
      | _ =>
          let e1 := fresh "e" in
          let e2 := fresh "e" in
          let w := fresh "w" in
          let H := fresh "Hthrow" in
          destruct (lift_throw_run api o env) as (e1 & e2 & w & H);
          rewrite !H
      end; tidy
  | |- context [@ret ?Ev ?Ext ?A ?a ?env] =>
      change (@ret Ev Ext A a env) with (@mkRun Ev Ext A (Returned a) env []);
      tidy
  end.

Ltac unfold_api :=
  unfold rsa.c_RAND_status, rsa.c_RSA_new, rsa.c_BN_new, rsa.c_BN_set_word,
    rsa.c_RSA_generate_key_ex, rsa.c_RSA_print_fp, rsa.c_BN_free,
    rsa.c_RSA_free, rsa.c_ERR_get_error, rsa.cerr.

Ltac use_null_tests :=
  repeat match goal with
         | H : is_nullptr _ = _ |- _ => rewrite H
         end.

(** ** examples/rsa.cpp: the properties *)

Section RsaProperties.
Context {World : Type}.
Variable api : @rsa.API World.

(** X9. [rsaKeygenCWay], whatever OpenSSL does: every object it was
    handed is freed exactly once before it returns, the [BIGNUM] before
    the [RSA], and nothing else is freed; it returns 0 having written
    nothing to [std::cerr], or 1 having written a diagnostic. *)
Theorem X9_rsaKeygenCWay_frees_and_reports (w : Env World) :
  let r := rsa.rsaKeygenCWay api (rsa.start w) in
  gives_back_what_it_took r
  /\ ((result r = Returned 0 /\ rsa.cerr_text (rsa.trace (final r)) = "")
      \/ (result r = Returned 1 /\ rsa.cerr_text (rsa.trace (final r)) <> "")).
Proof.
  cbv zeta.
  set (P := fun r : run Empty_set (@rsa.Traced World) int =>
    gives_back_what_it_took r
    /\ ((result r = Returned 0 /\ rsa.cerr_text (rsa.trace (final r)) = "")
        \/ (result r = Returned 1
            /\ rsa.cerr_text (rsa.trace (final r)) <> ""))).
  change (P (rsa.rsaKeygenCWay api (rsa.start w))).
  unfold rsa.rsaKeygenCWay, rsa.report_to_cerr, rsa.out, rsa.out_rsa.
  unfold_api.
  repeat exec_step api.
  all: unfold P, gives_back_what_it_took; cbn [result final rsa.trace ext snd].
  all: cbn [rsa.released rsa.acquired rsa.cerr_text rev app].
  all: use_null_tests; split; [reflexivity|].
  all: try (left; split; reflexivity).
  all: right; split; [reflexivity|].
  all: try apply text_newline_nonempty; discriminate.
Qed.

Lemma rsaKeygenUniquePtr_facts (o : bool) (w : Env World) :
  let r := rsa.rsaKeygenUniquePtr api o (rsa.start w) in
  gives_back_what_it_took r
  /\ rsa.cerr_text (rsa.trace (final r)) = ""
  /\ (result r = Returned 0
      \/ exists msg, result r = Thrown (runtime_error msg)).
Proof.
  cbv zeta.
  set (P := fun r : run Empty_set (@rsa.Traced World) int =>
    gives_back_what_it_took r
    /\ rsa.cerr_text (rsa.trace (final r)) = ""
    /\ (result r = Returned 0
        \/ exists msg, result r = Thrown (runtime_error msg))).
  change (P (rsa.rsaKeygenUniquePtr api o (rsa.start w))).
  unfold rsa.rsaKeygenUniquePtr, rsa.scope, rsa.unique_ptr_destructor,
    rsa.RSADeleter, rsa.BNDeleter.
  unfold_api.
  repeat exec_step api.
  all: unfold P, gives_back_what_it_took; cbn [result final rsa.trace ext snd].
  all: cbn [rsa.released rsa.acquired rsa.cerr_text rev app].
  all: use_null_tests; split; [reflexivity|]; split; [reflexivity|].
  all: try (left; reflexivity).
  all: right; eexists; reflexivity.
Qed.

Lemma rsaKeygenCWrapWay_eq (std : cppc.cpp_standard) (o : bool)
    (env : Env (@rsa.Traced World)) :
  rsa.rsaKeygenCWrapWay api std o env = rsa.rsaKeygenUniquePtr api o env.
Proof.
  unfold rsa.rsaKeygenCWrapWay, rsa.rsaKeygenUniquePtr, rsa.scope,
    rsa.unique_ptr_destructor, rsa.RSADeleter, rsa.BNDeleter.
  unfold_api.
  repeat exec_step api.
  all: reflexivity.
Qed.

(** X10. [rsaKeygenUniquePtr], whatever OpenSSL does and whichever
    operand the compiler evaluates first: it returns 0 or throws a
    [std::runtime_error]; either way every object it was handed has been
    freed exactly once when it is left, in reverse order, a null pointer
    is never freed, and nothing is written to [std::cerr]. *)
Theorem X10_rsaKeygenUniquePtr_frees_and_throws (o : bool) (w : Env World) :
  let r := rsa.rsaKeygenUniquePtr api o (rsa.start w) in
  gives_back_what_it_took r
  /\ rsa.cerr_text (rsa.trace (final r)) = ""
  /\ (result r = Returned 0
      \/ exists msg, result r = Thrown (runtime_error msg)).
Proof. exact (rsaKeygenUniquePtr_facts o w). Qed.

(** X11. [rsaKeygenCWay] and [rsaKeygenUniquePtr] started in the same
    state make the same calls of the working functions of OpenSSL, with
    the same arguments and results, frees included; one returns 0 exactly
    when the other does, and then they leave the same state; one returns
    1 exactly when the other throws. *)
Theorem X11_rsaKeygenCWay_and_rsaKeygenUniquePtr_agree
    (o : bool) (w : Env World) :
  same_work_and_verdict (rsa.rsaKeygenCWay api (rsa.start w))
                        (rsa.rsaKeygenUniquePtr api o (rsa.start w)).
Proof.
  unfold rsa.rsaKeygenCWay, rsa.report_to_cerr, rsa.out, rsa.out_rsa.
  unfold rsa.rsaKeygenUniquePtr, rsa.scope, rsa.unique_ptr_destructor,
    rsa.RSADeleter, rsa.BNDeleter.
  unfold_api.
  repeat exec_step api.
  all: unfold same_work_and_verdict;
    cbn [result final rsa.trace ext snd rsa.work].
  all: repeat split; try reflexivity; try discriminate; intros;
    try discriminate.
  all: try (eexists; reflexivity).
  all: match goal with
       | H : exists _, _ |- _ => destruct H as [? H]; discriminate
       end.
Qed.

(** X12. [rsaKeygenCWrapWay], with the guard as modelled, is
    [rsaKeygenUniquePtr]: in every state the two have the same result,
    the text of the exception included, and leave the same state and the
    same trace of calls. *)
Theorem X12_rsaKeygenCWrapWay_is_rsaKeygenUniquePtr
    (std : cppc.cpp_standard) (o : bool) (env : Env (@rsa.Traced World)) :
  rsa.rsaKeygenCWrapWay api std o env = rsa.rsaKeygenUniquePtr api o env.
Proof. exact (rsaKeygenCWrapWay_eq std o env). Qed.

(** X13. [rsaKeygenCWrapWay], with the guard as modelled: it returns 0 or
    throws a [std::runtime_error], and either way every object it was
    handed has been freed exactly once, in reverse order, when it is
    left. *)
Theorem X13_rsaKeygenCWrapWay_frees_and_throws
    (std : cppc.cpp_standard) (o : bool) (w : Env World) :
  let r := rsa.rsaKeygenCWrapWay api std o (rsa.start w) in
  gives_back_what_it_took r
  /\ rsa.cerr_text (rsa.trace (final r)) = ""
  /\ (result r = Returned 0
      \/ exists msg, result r = Thrown (runtime_error msg)).
Proof.
  cbv zeta. rewrite rsaKeygenCWrapWay_eq.
  exact (rsaKeygenUniquePtr_facts o w).
Qed.

End RsaProperties.

(** *** One run of each variant *)

(** With [BN_set_word] failing and the errors 7 and 9 queued, the C
    variant prints the first error and frees both objects. *)
Example rsaKeygenCWay_when_BN_set_word_fails :
  let r := rsa.rsaKeygenCWay failing_BN_set_word (rsa.start (mkEnv 0 [7; 9]%N)) in
  result r = Returned 1
  /\ rsa.trace (final r)
     = [rsa.Ev_RAND_status 1; rsa.Ev_RSA_new (Ptr 1); rsa.Ev_BN_new (Ptr 2);
        rsa.Ev_BN_set_word (Ptr 2) 65537 0; rsa.Ev_ERR_get_error 7;
        rsa.Ev_cerr "error 7"; rsa.Ev_cerr rsa.newline;
        rsa.Ev_BN_free (Ptr 2); rsa.Ev_RSA_free (Ptr 1)].
Proof. split; reflexivity. Qed.

(** The same failure in the other two variants: both errors are taken
    off the queue, and which one is named in the text depends on the
    order the compiler chose. *)
Example rsaKeygenCWrapWay_when_BN_set_word_fails :
  let run_it right_first :=
    rsa.rsaKeygenCWrapWay failing_BN_set_word cppc.cpp17 right_first
                          (rsa.start (mkEnv 0 [7; 9]%N)) in
  result (run_it false) = Thrown (runtime_error "error 7: 9")
  /\ result (run_it true) = Thrown (runtime_error "error 9: 7")
  /\ rsa.trace (final (run_it false))
     = [rsa.Ev_RAND_status 1; rsa.Ev_RSA_new (Ptr 1); rsa.Ev_BN_new (Ptr 2);
        rsa.Ev_BN_set_word (Ptr 2) 65537 0; rsa.Ev_ERR_get_error 7;
        rsa.Ev_ERR_get_error 9;
        rsa.Ev_BN_free (Ptr 2); rsa.Ev_RSA_free (Ptr 1)].
Proof. repeat split; reflexivity. Qed.
